(** * yelp-crawler: the extraction pipeline of [crawler.py]

    A shallow embedding of class [YelpCrawler]: text sanitising, the
    BeautifulSoup tree queries the crawler issues, the two-stage
    (listing page, detail page) extraction and the pagination loop,
    followed by the properties of the specification that were checked
    against it.

    Conventions.
    - Python [str] values are Rocq [string]s; a character is a code point
      below 256 and the whitespace predicate is Python's [str.isspace] on
      that range.
    - A parsed page is a [Node] tree: plain strings, strings of the
      parser's special classes (comments, script and style text, ...) and
      tags.  A bs4 object, which knows its parent and siblings, is a [Loc]:
      a node together with the path of enclosing tags that leads to it.
    - The outside world is an oracle.  It answers [requests.get] knowing
      the requests made before; parsing of the response body is folded into
      it, so that it answers with the tree that
      [BeautifulSoup(response.content, 'html.parser')] builds.  It also
      decides whether the [fix.html] debug file can be written.
    - Exceptions and the two effects of the program (HTTP requests, the
      [fix.html] debug file) are threaded through a state-and-error monad. *)

From Stdlib Require Import ZArith List Bool String Ascii Lia PeanoNat.
Import ListNotations.

Set Warnings "-register-all".

Open Scope string_scope.
Open Scope list_scope.

(* ================================================================== *)
(** ** Python strings *)

Module PyStr.

(** [str.isspace] for a single character (code points below 256). *)
Definition isspace (c : ascii) : bool :=
  let n := nat_of_ascii c in
  (((9 <=? n) && (n <=? 13)) || ((28 <=? n) && (n <=? 32))
   || (n =? 133) || (n =? 160))%nat.

Fixpoint lstrip (s : string) : string :=
  match s with
  | EmptyString => EmptyString
  | String c s' => if isspace c then lstrip s' else s
  end.

Fixpoint rstrip (s : string) : string :=
  match s with
  | EmptyString => EmptyString
  | String c s' =>
      match rstrip s' with
      | EmptyString => if isspace c then EmptyString else String c EmptyString
      | r => String c r
      end
  end.

(** [s.strip()] *)
Definition strip (s : string) : string := rstrip (lstrip s).

(** Left-to-right scan of [s.replace(old, new)] for a non-empty [old];
    [skip] counts the characters of a match still to be dropped. *)
Fixpoint replace_scan (old new : string) (skip : nat) (s : string) : string :=
  match s with
  | EmptyString => EmptyString
  | String c s' =>
      match skip with
      | S k => replace_scan old new k s'
      | O =>
          if prefix old s
          then new ++ replace_scan old new (length old - 1) s'
          else String c (replace_scan old new 0 s')
      end
  end.

(** An empty [old] matches before every character and at the end. *)
Fixpoint replace_empty (new s : string) : string :=
  match s with
  | EmptyString => new
  | String c s' => new ++ String c (replace_empty new s')
  end.

(** [s.replace(old, new)] *)
Definition replace (old new s : string) : string :=
  match old with
  | EmptyString => replace_empty new s
  | _ => replace_scan old new 0 s
  end.

(** [sub in s] *)
Fixpoint contains (sub s : string) : bool :=
  prefix sub s
  || match s with
     | EmptyString => false
     | String _ s' => contains sub s'
     end.

(** [re.findall(r"\S+", s)]: the maximal runs of non-whitespace. *)
Fixpoint words_from (cur s : string) : list string :=
  match s with
  | EmptyString => match cur with EmptyString => [] | _ => [cur] end
  | String c s' =>
      if isspace c
      then match cur with
           | EmptyString => words_from EmptyString s'
           | _ => cur :: words_from EmptyString s'
           end
      else words_from (cur ++ String c EmptyString) s'
  end.

Definition words (s : string) : list string := words_from EmptyString s.

(** [sep.join(l)] *)
Definition join (sep : string) (l : list string) : string := concat sep l.

Definition newline : string := String (ascii_of_nat 10) EmptyString.

End PyStr.

(* ================================================================== *)
(** ** Parsed pages *)

(** The classes of string the parser makes besides the plain
    [NavigableString]: comments and the like, and the strings found inside
    [script], [style], [template], [rt] and [rp]. *)
Inductive StringClass : Type :=
| CommentStr                  (* Comment *)
| CDataStr                    (* CData *)
| DoctypeStr                  (* Doctype *)
| DeclarationStr              (* Declaration *)
| ProcessingInstructionStr    (* ProcessingInstruction *)
| ScriptStr                   (* Script *)
| StylesheetStr               (* Stylesheet *)
| TemplateStr                 (* TemplateString *)
| RubyTextStr                 (* RubyTextString *)
| RubyParenthesisStr.         (* RubyParenthesisString *)

(** A parsed page: plain strings, strings of a special class, and tags
    with their attributes and contents. *)
Inductive Node : Type :=
| Text (s : string)
| Special (c : StringClass) (s : string)
| Elem (name : string) (attrs : list (string * string)) (contents : list Node).

(** One step of the way up from a node: the enclosing tag, the siblings
    before the node (nearest first) and the siblings after it. *)
Record Crumb : Type := mkCrumb {
  up_name : string;
  up_attrs : list (string * string);
  before : list Node;
  after : list Node
}.

(** A bs4 page element: a node and its position in the document. *)
Record Loc : Type := mkLoc {
  here : Node;
  above : list Crumb
}.

(** The [BeautifulSoup] object of a page. *)
Definition soup_of (page : Node) : Loc := mkLoc page [].

Definition plug (c : Crumb) (n : Node) : Node :=
  Elem (up_name c) (up_attrs c) (rev_append (before c) (n :: after c)).

(** [el.parent] *)
Definition parent (l : Loc) : option Loc :=
  match above l with
  | [] => None
  | c :: up => Some (mkLoc (plug c (here l)) up)
  end.

Fixpoint ancestors_from (n : Node) (ctx : list Crumb) : list Loc :=
  match ctx with
  | [] => []
  | c :: up => let p := plug c n in mkLoc p up :: ancestors_from p up
  end.

(** [el.parents], nearest first. *)
Definition ancestors (l : Loc) : list Loc := ancestors_from (here l) (above l).

Fixpoint previous_tag (bs : list Node) (aft : list Node)
  : option (Node * list Node * list Node) :=
  match bs with
  | [] => None
  | b :: bs' =>
      match b with
      | Elem _ _ _ => Some (b, bs', aft)
      | Text _ | Special _ _ => previous_tag bs' (b :: aft)
      end
  end.

(** The nearest preceding sibling that is a tag. *)
Definition previous_sibling_tag (l : Loc) : option Loc :=
  match above l with
  | [] => None
  | c :: up =>
      match previous_tag (before c) (here l :: after c) with
      | Some (b, bs, aft) =>
          Some (mkLoc b (mkCrumb (up_name c) (up_attrs c) bs aft :: up))
      | None => None
      end
  end.

(** A node and everything below it, in document order. *)
Fixpoint subtree_locs (ctx : list Crumb) (n : Node) {struct n} : list Loc :=
  mkLoc n ctx ::
  match n with
  | Text _ | Special _ _ => []
  | Elem name attrs cs =>
      (fix children (bs rest : list Node) {struct rest} : list Loc :=
         match rest with
         | [] => []
         | c :: aft =>
             subtree_locs (mkCrumb name attrs bs aft :: ctx) c
             ++ children (c :: bs) aft
         end) [] cs
  end.

(** [el.descendants] *)
Definition descendants (l : Loc) : list Loc :=
  tl (subtree_locs (above l) (here l)).

Definition is_tag (n : Node) : bool :=
  match n with Elem _ _ _ => true | Text _ | Special _ _ => false end.

(** The classes of string [.text] collects below a tag of a given name
    ([None] is the plain string): the tag's own class of string for the
    five container tags, plain strings and CDATA for every other tag. *)
Definition interesting (name : string) (c : option StringClass) : bool :=
  if name =? "script"
  then match c with Some ScriptStr => true | _ => false end
  else if name =? "style"
  then match c with Some StylesheetStr => true | _ => false end
  else if name =? "template"
  then match c with Some TemplateStr => true | _ => false end
  else if name =? "rt"
  then match c with Some RubyTextStr => true | _ => false end
  else if name =? "rp"
  then match c with Some RubyParenthesisStr => true | _ => false end
  else match c with None | Some CDataStr => true | _ => false end.

(** The strings of the wanted classes in and below a node, in document
    order, concatenated. *)
Fixpoint strings_of (wanted : option StringClass -> bool) (n : Node)
  : string :=
  match n with
  | Text s => if wanted None then s else ""
  | Special c s => if wanted (Some c) then s else ""
  | Elem _ _ cs => concat "" (map (strings_of wanted) cs)
  end.

(** [el.text]: for a tag, the strings below it whose class the tag is
    interested in; for a string, the string itself when it is plain or
    CDATA. *)
Definition get_text (n : Node) : string :=
  match n with
  | Elem name _ _ => strings_of (interesting name) n
  | _ => strings_of (interesting "") n
  end.

(** [tag.string]: the single string of a tag, looked for through a chain
    of only children. *)
Fixpoint node_string (n : Node) : option string :=
  match n with
  | Text s | Special _ s => Some s
  | Elem _ _ cs =>
      match cs with
      | [c] => node_string c
      | _ => None
      end
  end.

Fixpoint lookup (k : string) (kvs : list (string * string)) : option string :=
  match kvs with
  | [] => None
  | (k', v) :: rest => if k' =? k then Some v else lookup k rest
  end.

(** [tag.get(key)] *)
Definition get (l : Loc) (key : string) : option string :=
  match here l with
  | Elem _ attrs _ => lookup key attrs
  | Text _ | Special _ _ => None
  end.

(** The parser stores [class] as the list of its whitespace-separated
    tokens. *)
Definition classes (attrs : list (string * string)) : list string :=
  match lookup "class" attrs with
  | Some v => PyStr.words v
  | None => []
  end.

(** The value an attribute selector is compared with: a list-valued
    attribute is joined with single spaces. *)
Definition attr_value (a : string) (attrs : list (string * string))
  : option string :=
  if a =? "class"
  then match lookup "class" attrs with
       | Some v => Some (PyStr.join " " (PyStr.words v))
       | None => None
       end
  else lookup a attrs.

(** [soup.find_all(name, string=s)]: the tags below [l] called [name]
    whose [.string] equals [s] (no constraint when [s] is absent). *)
Definition find_match (name : string) (str : option string) (l : Loc) : bool :=
  match here l with
  | Text _ | Special _ _ => false
  | Elem nm _ _ =>
      (nm =? name)
      && match str with
         | None => true
         | Some s =>
             match node_string (here l) with
             | Some t => t =? s
             | None => false
             end
         end
  end.

Definition find_all (name : string) (str : option string) (l : Loc)
  : list Loc :=
  filter (find_match name str) (descendants l).

(* ================================================================== *)
(** ** CSS selectors, as far as the crawler uses them *)

Inductive Simple : Type :=
| TypeSel (name : string)               (* div *)
| IdSel (id : string)                   (* #reviews *)
| ClassSel (c : string)                 (* .ABP *)
| AttrEquals (a v : string)             (* [a="v"] *)
| AttrContains (a v : string)           (* [a*="v"] *)
| Negation (s : Simple)                 (* :not(s) *)
| FirstChild                            (* :first-child *)
| LastChild.                            (* :last-child *)

Inductive Combinator : Type :=
| Descendant                            (* A B *)
| Child                                 (* A > B *)
| NextSibling.                          (* A + B *)

Inductive Selector : Type :=
| Compound (c : list Simple)
| Combine (lhs : Selector) (comb : Combinator) (rhs : list Simple).

Fixpoint match_simple (name : string) (attrs : list (string * string))
    (ctx : list Crumb) (s : Simple) : bool :=
  match s with
  | TypeSel n => name =? n
  | IdSel i =>
      match lookup "id" attrs with Some v => v =? i | None => false end
  | ClassSel c => existsb (String.eqb c) (classes attrs)
  | AttrEquals a v =>
      (* the value is matched against the pattern ^v$, which also accepts
         one trailing newline *)
      match attr_value a attrs with
      | Some x => (x =? v) || (x =? v ++ PyStr.newline)
      | None => false
      end
  | AttrContains a v =>
      match attr_value a attrs with
      | Some x => PyStr.contains v x
      | None => false
      end
  | Negation s' => negb (match_simple name attrs ctx s')
  | FirstChild =>
      match ctx with
      | [] => true
      | c :: _ => negb (existsb is_tag (before c))
      end
  | LastChild =>
      match ctx with
      | [] => true
      | c :: _ => negb (existsb is_tag (after c))
      end
  end.

Definition match_compound (c : list Simple) (l : Loc) : bool :=
  match here l with
  | Text _ | Special _ _ => false
  | Elem name attrs _ => forallb (match_simple name attrs (above l)) c
  end.

(** Does the element at [l] match the selector?  Ancestors and siblings are
    looked up in the whole document. *)
Fixpoint matches (sel : Selector) (l : Loc) : bool :=
  match sel with
  | Compound c => match_compound c l
  | Combine lhs comb rhs =>
      match_compound rhs l
      && match comb with
         | Descendant => existsb (matches lhs) (ancestors l)
         | Child =>
             match parent l with
             | Some p => matches lhs p
             | None => false
             end
         | NextSibling =>
             match previous_sibling_tag l with
             | Some p => matches lhs p
             | None => false
             end
         end
  end.

(** [el.select(sel)]: the matching tags below [el], in document order. *)
Definition select (sel : Selector) (l : Loc) : list Loc :=
  filter (matches sel) (descendants l).

(** [el.select_one(sel)] *)
Definition select_one (sel : Selector) (l : Loc) : option Loc :=
  hd_error (select sel l).

(* ================================================================== *)
(** ** Effects: requests, the debug file, exceptions *)

(** [requests.get(url)] and [requests.get(url, params={"start": n})]. *)
Record Request : Type := mkRequest {
  url : string;
  start : option Z
}.

Record Response : Type := mkResponse {
  status_code : Z;
  content : Node          (* the tree the parser makes of the body *)
}.

(** What the network does with a request: no answer at all, or a response
    with some status.  The crawler never reads the status. *)
Inductive Reply : Type :=
| NoAnswer
| Answer (r : Response).

(** The outside world.  It answers a request knowing the requests before
    it, and it lets the debug file be written or not, knowing what was
    written before ([open] and [write] fail on a read-only directory, a
    full disk, a directory of that name). *)
Record Web : Type := mkWeb {
  answer : list Request -> Request -> Reply;
  writable : list Node -> Node -> bool
}.

(** [web history rq] is the answer of the network. *)
Coercion answer : Web >-> Funclass.

Inductive Exn : Type :=
| IndexError              (* list index out of range *)
| AttributeError          (* attribute access on None *)
| RequestException        (* raised by requests.get *)
| OSError.                (* raised by open or write *)

Inductive Result (A : Type) : Type :=
| Ok (a : A)
| Raise (e : Exn)
| OutOfFuel.

Arguments Ok {A} a.
Arguments Raise {A} e.
Arguments OutOfFuel {A}.

Record World : Type := mkWorld {
  sent : list Request;        (* requests issued so far, oldest first *)
  fix_html : list Node        (* cards written to fix.html, oldest first *)
}.

Definition M (A : Type) : Type := World -> Result A * World.

Definition ret {A} (a : A) : M A := fun w => (Ok a, w).

Definition raise {A} (e : Exn) : M A := fun w => (Raise e, w).

Definition bind {A B} (m : M A) (k : A -> M B) : M B :=
  fun w =>
    match m w with
    | (Ok a, w') => k a w'
    | (Raise e, w') => (Raise e, w')
    | (OutOfFuel, w') => (OutOfFuel, w')
    end.

Notation "x <- m ;; k" := (bind m (fun x => k))
  (at level 61, m at next level, right associativity).
Notation "m ;;; k" := (bind m (fun _ => k))
  (at level 61, right associativity).

(** A computation that leaves the world alone and does not look at it. *)
Definition pure {A} (m : M A) : Prop := exists r, forall w, m w = (r, w).

(** A computation that never runs out of fuel. *)
Definition finite {A} (m : M A) : Prop := forall w, fst (m w) <> OutOfFuel.

(** [xs[i]] *)
Definition item {A} (xs : list A) (i : nat) : M A :=
  match nth_error xs i with
  | Some x => ret x
  | None => raise IndexError
  end.

Definition requests_get (web : Web) (rq : Request) : M Response :=
  fun w =>
    let w' := mkWorld (sent w ++ [rq]) (fix_html w) in
    match web (sent w) rq with
    | Answer r => (Ok r, w')
    | NoAnswer => (Raise RequestException, w')
    end.

(** [open('fix.html', 'w').write(card.prettify())]: the card is written
    when the world allows it; otherwise [OSError] is raised and nothing is
    recorded as written. *)
Definition write_fix_html (web : Web) (card : Node) : M unit :=
  fun w =>
    if writable web (fix_html w) card
    then (Ok tt, mkWorld (sent w) (fix_html w ++ [card]))
    else (Raise OSError, w).

(** A listing-page request carries the [start] parameter, a detail-page
    request does not. *)
Definition is_listing (rq : Request) : bool :=
  match start rq with Some _ => true | None => false end.

(* ================================================================== *)
(** ** The crawler *)

Record Review : Type := mkReview {
  reviewer_name : option string;
  reviewer_location : option string;
  review_date : option string
}.

(** The [object_data] dictionary.  The key ["website"] is only set by the
    detail stage: [website = None] is a dictionary without the key,
    [Some None] the key bound to Python's [None]. *)
Record Business : Type := mkBusiness {
  name : option string;
  rating : option string;
  reviews_count : option string;
  yelp_url : option string;
  reviews : list Review;
  website : option (option string)
}.

Record YelpCrawler : Type := mkCrawler {
  search : string;
  number_of_reviews : Z;
  max_pages : option Z
}.

Definition error_text : string :=
  "We're sorry, the page of results you requested is unavailable.".

(** div[data-testid="serp-ia-card"]:not(.ABP) *)
Definition card_selector : Selector :=
  Compound [TypeSel "div"; AttrEquals "data-testid" "serp-ia-card";
            Negation (ClassSel "ABP")].

(** [class*="businessName"] a *)
Definition name_selector : Selector :=
  Combine (Compound [AttrContains "class" "businessName"])
    Descendant [TypeSel "a"].

(** div.css-volmcs + div.css-1jq1ouh > span:first-child *)
Definition rating_selector : Selector :=
  Combine
    (Combine (Compound [TypeSel "div"; ClassSel "css-volmcs"])
       NextSibling [TypeSel "div"; ClassSel "css-1jq1ouh"])
    Child [TypeSel "span"; FirstChild].

(** div.css-volmcs + div.css-1jq1ouh > span:last-child *)
Definition review_count_selector : Selector :=
  Combine
    (Combine (Compound [TypeSel "div"; ClassSel "css-volmcs"])
       NextSibling [TypeSel "div"; ClassSel "css-1jq1ouh"])
    Child [TypeSel "span"; LastChild].

(** div#reviews ul[class="list__09f24__ynIEd"] *)
Definition reviews_list_selector : Selector :=
  Combine (Compound [TypeSel "div"; IdSel "reviews"])
    Descendant [TypeSel "ul"; AttrEquals "class" "list__09f24__ynIEd"].

(** div.user-passport-info > span > a *)
Definition reviewer_name_selector : Selector :=
  Combine
    (Combine (Compound [TypeSel "div"; ClassSel "user-passport-info"])
       Child [TypeSel "span"])
    Child [TypeSel "a"].

(** div.user-passport-info > div > div > span *)
Definition reviewer_location_selector : Selector :=
  Combine
    (Combine
       (Combine (Compound [TypeSel "div"; ClassSel "user-passport-info"])
          Child [TypeSel "div"])
       Child [TypeSel "div"])
    Child [TypeSel "span"].

(** li > div > div *)
Definition date_block_selector : Selector :=
  Combine (Combine (Compound [TypeSel "li"]) Child [TypeSel "div"])
    Child [TypeSel "div"].

(** div > div[class*="arrange-unit-fill"] > span *)
Definition date_selector : Selector :=
  Combine
    (Combine (Compound [TypeSel "div"])
       Child [TypeSel "div"; AttrContains "class" "arrange-unit-fill"])
    Child [TypeSel "span"].

(** Python's truth value of an element: [None] is false, a tag is always
    true (whatever it contains), a string object is true unless empty. *)
Definition truthy (element : option Loc) : bool :=
  match element with
  | None => false
  | Some l =>
      match here l with
      | Elem _ _ _ => true
      | Text s | Special _ s => negb (s =? "")
      end
  end.

(** [for symbol in additional_symbols: text = text.replace(symbol, "")] *)
Definition remove_all (additional_symbols : list string) (text : string)
  : string :=
  fold_left (fun text symbol => PyStr.replace symbol "" text)
    additional_symbols text.

(** The text-level part of [sanitize_element_text]: strip, then remove the
    symbols one after the other. *)
Definition sanitize_text (text : string) (additional_symbols : list string)
  : string :=
  remove_all additional_symbols (PyStr.strip text).

Definition sanitize_element_text (element : option Loc)
    (additional_symbols : list string) : option string :=
  match element with
  | Some l =>
      if negb (truthy element) then None
      else Some (sanitize_text (get_text (here l)) additional_symbols)
  | None => None
  end.

(** An f-string field: [None] is printed as the word None. *)
Definition format_field (v : option string) : string :=
  match v with Some s => s | None => "None" end.

Section Crawler.

Variable web : Web.
Variable self : YelpCrawler.

(** The [for review in reviews] loop of [get_object_reviews]. *)
Fixpoint reviews_loop (soup : Loc) (reviews : list Loc)
    (reviews_items : list Review) : M (list Review) :=
  match reviews with
  | [] => ret reviews_items
  | review :: rest =>
      if (Z.of_nat (List.length reviews_items) >=? number_of_reviews self)%Z
      then ret reviews_items
      else
        let name_element := select_one reviewer_name_selector review in
        let location_element :=
          select_one reviewer_location_selector review in
        date_element <- item (select date_block_selector soup) 1 ;;
        let date_element := select_one date_selector date_element in
        let review_data :=
          mkReview (sanitize_element_text name_element [])
                   (sanitize_element_text location_element [])
                   (sanitize_element_text date_element []) in
        reviews_loop soup rest (reviews_items ++ [review_data])
  end.

(** The website lookup of [get_object_reviews]. *)
Definition website_of (soup : Loc) : M (option string) :=
  match find_all "p" (Some "Business website") soup with
  | [] => ret None
  | first :: _ =>
      match parent first with
      | None => raise AttributeError
      | Some p =>
          website_element <- item (find_all "p" None p) 1 ;;
          ret (sanitize_element_text (Some website_element) [])
      end
  end.

(** Everything [get_object_reviews] does once the page is parsed. *)
Definition extract_details (soup : Loc) : M (list Review * option string) :=
  website <- website_of soup ;;
  match select_one reviews_list_selector soup with
  | None => ret ([], website)
  | Some reviews_list_block =>
      let reviews := find_all "li" None reviews_list_block in
      reviews_items <- reviews_loop soup reviews [] ;;
      ret (reviews_items, website)
  end.

Definition get_object_reviews (object_url : string)
  : M (list Review * option string) :=
  response <- requests_get web (mkRequest object_url None) ;;
  extract_details (soup_of (content response)).

Definition get_object_data (card : Loc) : M Business :=
  let name_element := select_one name_selector card in
  let rating_element := select_one rating_selector card in
  let review_count_element := select_one review_count_selector card in
  let object_data :=
    mkBusiness
      (sanitize_element_text name_element [])
      (sanitize_element_text rating_element [])
      (sanitize_element_text review_count_element ["("; ")"])
      (match name_element with
       | Some a =>
           if truthy name_element
           then Some ("https://www.yelp.com" ++ format_field (get a "href"))%string
           else None
       | None => None
       end)
      []
      None in
  object_data <-
    (match yelp_url object_data with
     | Some u =>
         if u =? "" then ret object_data
         else
           found <- get_object_reviews u ;;
           ret (mkBusiness (name object_data) (rating object_data)
                  (reviews_count object_data) (yelp_url object_data)
                  (fst found) (Some (snd found)))
     | None => ret object_data
     end) ;;
  (if negb (truthy name_element) then write_fix_html web (here card)
   else ret tt) ;;;
  ret object_data.

(** [for card in business_cards: objects.append(...)] *)
Fixpoint cards_loop (business_cards : list Loc) (objects : list Business)
  : M (list Business) :=
  match business_cards with
  | [] => ret objects
  | card :: rest =>
      object_data <- get_object_data card ;;
      cards_loop rest (objects ++ [object_data])
  end.

(** [soup.find_all("h3", string=error_text)] is not empty. *)
Definition is_terminal (soup : Loc) : bool :=
  match find_all "h3" (Some error_text) soup with
  | [] => false
  | _ :: _ => true
  end.

Definition beyond_last_page (page : Z) : bool :=
  match max_pages self with
  | Some m => (page >? m)%Z
  | None => false
  end.

(** The [while True] loop of [get_objects_list]; one unit of fuel per
    iteration. *)
Fixpoint pages_loop (fuel : nat) (page : Z) (objects : list Business)
  : M (list Business) :=
  match fuel with
  | O => fun w => (OutOfFuel, w)
  | S fuel' =>
      let offset := (page * 10)%Z in
      let page := (page + 1)%Z in
      if beyond_last_page page then ret objects
      else
        response <- requests_get web (mkRequest (search self) (Some offset)) ;;
        let soup := soup_of (content response) in
        if is_terminal soup then ret objects
        else
          let business_cards := select card_selector soup in
          objects <- cards_loop business_cards objects ;;
          pages_loop fuel' page objects
  end.

Definition get_objects_list (fuel : nat) : M (list Business) :=
  pages_loop fuel 0%Z [].

End Crawler.

(** A fresh run: nothing requested, nothing written. *)
Definition initial : World := mkWorld [] [].

(** The world after one more request. *)
Definition after_request (w : World) (rq : Request) : World :=
  mkWorld (sent w ++ [rq]) (fix_html w).

(** The world after one more card dumped to the debug file. *)
Definition after_dump (w : World) (card : Node) : World :=
  mkWorld (sent w) (fix_html w ++ [card]).

(** The dictionary [review_data] built for one [li], given the block the
    page-level date lookup found. *)
Definition review_record (date_block review : Loc) : Review :=
  mkReview
    (sanitize_element_text (select_one reviewer_name_selector review) [])
    (sanitize_element_text (select_one reviewer_location_selector review) [])
    (sanitize_element_text (select_one date_selector date_block) []).

(** The items of the page's reviews list, in document order (none when the
    page has no reviews list). *)
Definition review_items (soup : Loc) : list Loc :=
  match select_one reviews_list_selector soup with
  | Some reviews_list_block => find_all "li" None reviews_list_block
  | None => []
  end.

(** The dictionary [object_data] as built from the card alone, before the
    detail stage. *)
Definition summary (card : Loc) : Business :=
  let name_element := select_one name_selector card in
  mkBusiness
    (sanitize_element_text name_element [])
    (sanitize_element_text (select_one rating_selector card) [])
    (sanitize_element_text (select_one review_count_selector card) ["("; ")"])
    (match name_element with
     | Some a =>
         if truthy name_element
         then Some ("https://www.yelp.com" ++ format_field (get a "href"))%string
         else None
     | None => None
     end)
    []
    None.

(** The dictionary after [get_object_reviews] has returned [found]. *)
Definition enriched (b : Business) (found : list Review * option string)
  : Business :=
  mkBusiness (name b) (rating b) (reviews_count b) (yelp_url b)
    (fst found) (Some (snd found)).

(** [extra] holds detail-page requests only. *)
Definition details_only (extra : list Request) : Prop :=
  Forall (fun rq => is_listing rq = false) extra.

(** A record without a detail link carries nothing from the detail stage. *)
Definition unenriched_without_link (b : Business) : Prop :=
  yelp_url b = None -> reviews b = [] /\ website b = None.

(** The request for the listing page numbered [page], counting from 0. *)
Definition page_request (self : YelpCrawler) (page : Z) : Request :=
  mkRequest (search self) (Some (page * 10)%Z).

(** The listing requests for [m] pages from page number [p] on. *)
Definition page_requests (self : YelpCrawler) (p : Z) (m : nat)
  : list Request :=
  map (fun i => page_request self (p + Z.of_nat i)) (seq 0 m).

(** A heading whose single string is exactly [s]. *)
Definition heading_with_text (s : string) (l : Loc) : Prop :=
  exists attrs cs,
    here l = Elem "h3" attrs cs /\ node_string (here l) = Some s.

(* ------------------------------------------------------------------ *)
(** *** The search address: [urllib.parse.urlencode] *)

Module Urllib.

(** The bytes [quote] never escapes: letters, digits and [_.-~]. *)
Definition always_safe (c : ascii) : bool :=
  let n := nat_of_ascii c in
  (((65 <=? n) && (n <=? 90)) || ((97 <=? n) && (n <=? 122))
   || ((48 <=? n) && (n <=? 57))
   || (n =? 95) || (n =? 46) || (n =? 45) || (n =? 126))%nat.

Definition hex_digit (n : nat) : ascii :=
  match String.get n "0123456789ABCDEF" with
  | Some d => d
  | None => "0"%char
  end.

(** ['%{:02X}'.format(byte)] *)
Definition percent (byte : nat) : string :=
  String "%" (String (hex_digit (byte / 16))
                (String (hex_digit (byte mod 16)) EmptyString)).

(** The UTF-8 bytes of a code point below 256. *)
Definition utf8 (c : ascii) : list nat :=
  let n := nat_of_ascii c in
  if (n <? 128)%nat then [n] else [192 + n / 64; 128 + n mod 64].

(** What [quote_plus] makes of one character: a safe byte stays, a space
    becomes a plus sign, every other byte of the UTF-8 encoding is
    written as a percent escape. *)
Definition quote_plus_char (c : ascii) : string :=
  if always_safe c then String c EmptyString
  else if (nat_of_ascii c =? 32)%nat then "+"
  else concat "" (map percent (utf8 c)).

(** [quote_plus(s, safe='')] *)
Fixpoint quote_plus (s : string) : string :=
  match s with
  | EmptyString => EmptyString
  | String c s' => (quote_plus_char c ++ quote_plus s')%string
  end.

(** [urlencode(query)] for a dictionary of strings, in insertion order. *)
Definition urlencode (query : list (string * string)) : string :=
  concat "&"
    (map (fun kv => (quote_plus (fst kv) ++ "=" ++ quote_plus (snd kv))%string)
       query).

End Urllib.

(** The attributes of a [YelpCrawler] object: what the constructor is
    given, the collected [data], and the attributes the crawl reads. *)
Record Crawler : Type := mkInstance {
  category : string;
  location : string;
  data : list Business;
  settings : YelpCrawler
}.

(** [YelpCrawler.__init__(category, location)] *)
Definition init (category location : string) : Crawler :=
  mkInstance category location [] (mkCrawler "" 5 (Some 5%Z)).

(** The address [run] stores in [self.search]. *)
Definition search_url (category location : string) : string :=
  ("https://www.yelp.com/search?"
   ++ Urllib.urlencode [("find_desc", category); ("find_loc", location)])%string.

(** [YelpCrawler.run]: the object as it is when [run] returns; the value
    returned is its [data]. *)
Definition run (web : Web) (fuel : nat) (self : Crawler) : M Crawler :=
  let search := search_url (category self) (location self) in
  let settings :=
    mkCrawler search (number_of_reviews (settings self))
      (max_pages (settings self)) in
  found <- get_objects_list web settings fuel ;;
  ret (mkInstance (category self) (location self) found settings).

(** The fields of a record that come from the listing card. *)
Definition listing_fields (b : Business)
  : option string * option string * option string * option string :=
  (name b, rating b, reviews_count b, yelp_url b).

(** [b] is what [get_object_data] returns for [card] in some world. *)
Definition produced (web : Web) (self : YelpCrawler) (card : Loc)
    (b : Business) : Prop :=
  exists w w', get_object_data web self card w = (Ok b, w').

(** The site every address of the crawler starts with. *)
Definition origin : string := "https://www.yelp.com".

(** A request the crawler is expected to make: the search address with a
    [start], or an address on the site without one. *)
Definition on_site (self : YelpCrawler) (rq : Request) : Prop :=
  match start rq with
  | Some _ => url rq = search self
  | None => prefix origin (url rq) = true
  end.

(** The cards of a page that have no name link. *)
Definition nameless (card : Loc) : bool :=
  match yelp_url (summary card) with
  | Some _ => false
  | None => true
  end.


(** A single character, as a string. *)
Definition single (c : ascii) : string := String c EmptyString.

(** [c in s] for a character. *)
Fixpoint occurs (c : ascii) (s : string) : bool :=
  match s with
  | EmptyString => false
  | String d s' => Ascii.eqb c d || occurs c s'
  end.

(** Every character of [s] satisfies [p]. *)
Fixpoint all_chars (p : ascii -> bool) (s : string) : bool :=
  match s with
  | EmptyString => true
  | String c s' => p c && all_chars p s'
  end.

(** The characters [quote_plus] can produce. *)
Definition query_char (c : ascii) : bool :=
  Urllib.always_safe c
  || (nat_of_ascii c =? 43)%nat || (nat_of_ascii c =? 37)%nat.

(** The reading of the specification under which a listing page without
    cards ends the run: no listing request follows such a page. *)
Definition stops_at_empty_page : Prop :=
  forall (web : Web) (self : YelpCrawler) (fuel : nat) (w : World)
         (r : Result (list Business)) (w' : World)
         (pre : list Request) (rq : Request) (post : list Request)
         (response : Response),
    get_objects_list web self fuel w = (r, w') ->
    sent w' = sent w ++ pre ++ rq :: post ->
    is_listing rq = true ->
    web (sent w ++ pre) rq = Answer response ->
    is_terminal (soup_of (content response)) = false ->
    select card_selector (soup_of (content response)) = [] ->
    filter is_listing post = [].

(** The reading of the specification under which a failed detail request
    is recovered: the card whose detail page cannot be fetched still gives
    a record, with no reviews and no website. *)
Definition recovers_transport_failure : Prop :=
  forall (web : Web) (self : YelpCrawler) (card : Loc) (u : string)
         (w : World),
    yelp_url (summary card) = Some u ->
    web (sent w) (mkRequest u None) = NoAnswer ->
    exists b w',
      get_object_data web self card w = (Ok b, w')
      /\ reviews b = []
      /\ (website b = None \/ website b = Some None).

(** The reading of the specification under which a card without a name
    link never stops the pass over the page: it always gives a record with
    no name and no link, and the loop goes on with the remaining cards. *)
Definition nameless_card_never_aborts : Prop :=
  forall (web : Web) (self : YelpCrawler) (card : Loc) (rest : list Loc)
         (objects : list Business) (w : World),
    select_one name_selector card = None ->
    exists record w',
      get_object_data web self card w = (Ok record, w')
      /\ name record = None
      /\ yelp_url record = None
      /\ cards_loop web self (card :: rest) objects w
         = cards_loop web self rest (objects ++ [record]) w'.

(* ================================================================== *)
(** ** Sample pages *)

Module Sample.

Definition document (cs : list Node) : Node := Elem "[document]" [] cs.

Definition review_item (who place : string) : Node :=
  Elem "li" []
    [Elem "div" []
       [Elem "div" [("class", "user-passport-info")]
          [Elem "span" [] [Elem "a" [("href", "/user")] [Text who]];
           Elem "div" [] [Elem "div" [] [Elem "span" [] [Text place]]]];
        Elem "div" []
          [Elem "div" []
             [Elem "div" [("class", "arrange-unit arrange-unit-fill")]
                [Elem "span" [] [Text "Jan 1, 2024"]]]]]].

Definition reviews_block (items : list Node) : Node :=
  Elem "div" [("id", "reviews")]
    [Elem "ul" [("class", "list__09f24__ynIEd")] items].

(** A detail page with a website and three reviews. *)
Definition detail_page : Node :=
  document
    [Elem "div" []
       [Elem "p" [] [Text "Business website"];
        Elem "p" [] [Text " joes.example "]];
     reviews_block
       [review_item "Ann" "Austin, TX"; review_item "Bob" "Reno, NV";
        review_item "Cy" "Ojai, CA"]].

(** A detail page without a website whose reviews list has eight items. *)
Definition eight_reviews_page : Node :=
  document
    [reviews_block
       (map (fun who => review_item who "Austin, TX")
          ["Ann"; "Bob"; "Cy"; "Di"; "Ed"; "Flo"; "Gus"; "Hal"])].

(** The website label with no second paragraph next to it. *)
Definition label_only_page : Node :=
  document [Elem "div" [] [Elem "p" [] [Text "Business website"]]].

(** A reviews list whose single item has none of the expected markup. *)
Definition bare_review_page : Node :=
  document [reviews_block [Elem "li" [] [Text "Great."]]].

Definition empty_page : Node := document [].

Definition last_page : Node := document [Elem "h3" [] [Text error_text]].

(** The sentinel followed by one more character. *)
Definition near_miss_page : Node :=
  document [Elem "h3" [] [Text (error_text ++ " ")%string]].

Definition card_ok : Node :=
  Elem "div" [("data-testid", "serp-ia-card")]
    [Elem "h3" [("class", "css-1 businessName__09f24")]
       [Elem "a" [("href", "/biz/joes")] [Text " Joe's "]];
     Elem "div" [("class", "css-volmcs")] [];
     Text " ";
     Elem "div" [("class", "css-1jq1ouh")]
       [Elem "span" [] [Text "4.5"]; Text " "; Elem "span" [] [Text "(42)"]]].

(** A card without the name link. *)
Definition card_anon : Node :=
  Elem "div" [("data-testid", "serp-ia-card")] [Elem "span" [] [Text "?"]].

(** A card whose name link has no text. *)
Definition card_blank : Node :=
  Elem "div" [("data-testid", "serp-ia-card")]
    [Elem "h3" [("class", "businessName")] [Elem "a" [("href", "/biz/x")] []]].

(** A card whose name link carries no [href]. *)
Definition card_no_href : Node :=
  Elem "div" [("data-testid", "serp-ia-card")]
    [Elem "h3" [("class", "businessName")] [Elem "a" [] [Text "Joe's"]]].

Definition listing_page : Node := document [card_anon; card_ok].

Definition crawler (pages : option Z) : YelpCrawler :=
  mkCrawler "https://www.yelp.com/search?find_desc=Bakery&find_loc=Austin"
    2 pages.

Definition served (page : Node) : Reply := Answer (mkResponse 200 page).

(** A world in which the debug file can always be written. *)
Definition online (network : list Request -> Request -> Reply) : Web :=
  mkWeb network (fun _ _ => true).

(** One listing page, then the sentinel; every detail page is the same. *)
Definition web_one_page : Web :=
  online (fun _ rq =>
    match start rq with
    | Some 0%Z => served listing_page
    | Some _ => served last_page
    | None => served detail_page
    end).

(** The same network, with a debug file that cannot be written. *)
Definition web_read_only : Web :=
  mkWeb (answer web_one_page) (fun _ _ => false).

(** Every listing page is empty and carries no sentinel. *)
Definition web_empty_pages : Web := online (fun _ _ => served empty_page).

(** Listing pages are served, detail pages cannot be reached. *)
Definition web_details_down : Web :=
  online (fun _ rq =>
    match start rq with
    | Some 0%Z => served listing_page
    | Some _ => served last_page
    | None => NoAnswer
    end).

(** Detail pages come back as an error status with an empty body. *)
Definition web_details_404 : Web :=
  online (fun _ rq =>
    match start rq with
    | Some 0%Z => served listing_page
    | Some _ => served last_page
    | None => Answer (mkResponse 404 empty_page)
    end).

Definition listing_request (offset : Z) : Request :=
  mkRequest (search (crawler None)) (Some offset).

Definition detail_request : Request :=
  mkRequest "https://www.yelp.com/biz/joes" None.

End Sample.

(* ================================================================== *)
(** ** Facts about Python strings *)

Module PyStrFacts.
Import PyStr.

Lemma rstrip_cons (c : ascii) (s : string) :
  rstrip (String c s)
  = match rstrip s with
    | EmptyString => if isspace c then EmptyString else String c EmptyString
    | r => String c r
    end.
Proof. reflexivity. Qed.

Lemma rstrip_idempotent (s : string) : rstrip (rstrip s) = rstrip s.
Proof.
  induction s as [|c s IH]; [reflexivity|].
  rewrite rstrip_cons.
  destruct (rstrip s) as [|d r] eqn:E.
  - destruct (isspace c) eqn:Ec; [reflexivity|].
    rewrite rstrip_cons. simpl. now rewrite Ec.
  - rewrite rstrip_cons, IH. reflexivity.
Qed.

Lemma lstrip_head (s : string) :
  lstrip s = EmptyString
  \/ exists c r, lstrip s = String c r /\ isspace c = false.
Proof.
  induction s as [|c s IH]; simpl; [now left|].
  destruct (isspace c) eqn:Ec; [exact IH|].
  right. now exists c, s.
Qed.

Lemma rstrip_keeps_head (c : ascii) (r : string) :
  isspace c = false -> exists r', rstrip (String c r) = String c r'.
Proof.
  intros Hc. simpl. destruct (rstrip r).
  - rewrite Hc. now exists EmptyString.
  - eexists. reflexivity.
Qed.

Lemma lstrip_fixed (c : ascii) (r : string) :
  isspace c = false -> lstrip (String c r) = String c r.
Proof. intros Hc. simpl. now rewrite Hc. Qed.

Lemma strip_idempotent (s : string) : strip (strip s) = strip s.
Proof.
  unfold strip.
  destruct (lstrip_head s) as [E | (c & r & E & Hc)]; rewrite E.
  - reflexivity.
  - destruct (rstrip_keeps_head c r Hc) as [r' E'].
    rewrite E', (lstrip_fixed c r' Hc), <- E'.
    apply rstrip_idempotent.
Qed.

Lemma lstrip_length (s : string) : length (lstrip s) <= length s.
Proof.
  induction s as [|c s IH]; simpl; [lia|].
  destruct (isspace c); simpl; lia.
Qed.

Lemma lstrip_same_length (s : string) :
  length (lstrip s) = length s -> lstrip s = s.
Proof.
  destruct s as [|c s]; simpl; [reflexivity|].
  destruct (isspace c); [|reflexivity].
  pose proof (lstrip_length s). lia.
Qed.

Lemma rstrip_length (s : string) : length (rstrip s) <= length s.
Proof.
  induction s as [|c s IH]; simpl; [lia|].
  destruct (rstrip s); [destruct (isspace c)|]; simpl in *; lia.
Qed.

Lemma rstrip_same_length (s : string) :
  length (rstrip s) = length s -> rstrip s = s.
Proof.
  induction s as [|c s IH]; simpl; [reflexivity|].
  pose proof (rstrip_length s) as L.
  destruct (rstrip s) as [|d r] eqn:E.
  - destruct (isspace c); simpl in *; intros H.
    + lia.
    + f_equal. apply IH. lia.
  - simpl. intros H. f_equal. apply IH. simpl in *. lia.
Qed.

Lemma strip_length (s : string) : length (strip s) <= length s.
Proof.
  unfold strip. pose proof (rstrip_length (lstrip s)).
  pose proof (lstrip_length s). lia.
Qed.

Lemma strip_same_length (s : string) :
  length (strip s) = length s -> strip s = s.
Proof.
  unfold strip. intros H.
  pose proof (rstrip_length (lstrip s)). pose proof (lstrip_length s).
  rewrite (rstrip_same_length (lstrip s)) by lia.
  apply lstrip_same_length. lia.
Qed.

Lemma remove_scan_length (old : string) (s : string) (k : nat) :
  length (replace_scan old "" k s) <= length s.
Proof.
  revert k. induction s as [|c s IH]; intros k; [simpl; lia|].
  cbn [replace_scan]. destruct k as [|k].
  - destruct (prefix old (String c s)).
    + specialize (IH (length old - 1)). simpl. lia.
    + specialize (IH 0). simpl. lia.
  - specialize (IH k). simpl. lia.
Qed.

Lemma remove_scan_absent (old s : string) :
  contains old s = false -> replace_scan old "" 0 s = s.
Proof.
  induction s as [|c s IH]; [reflexivity|].
  intros H. cbn [contains] in H.
  apply orb_false_iff in H. destruct H as [H1 H2].
  cbn [replace_scan]. rewrite H1. f_equal. now apply IH.
Qed.

Lemma remove_scan_present (old s : string) :
  contains old s = true -> old <> EmptyString ->
  length (replace_scan old "" 0 s) < length s.
Proof.
  intros H Hne. induction s as [|c s IH].
  - destruct old; [congruence | cbn in H; discriminate H].
  - cbn [replace_scan]. cbn [contains] in H.
    destruct (prefix old (String c s)) eqn:P.
    + pose proof (remove_scan_length old s (length old - 1)).
      simpl. lia.
    + simpl in H. simpl. specialize (IH H). lia.
Qed.

Lemma remove_length (old s : string) : length (replace old "" s) <= length s.
Proof.
  destruct old as [|a old].
  - simpl. induction s; simpl; lia.
  - apply remove_scan_length.
Qed.

Lemma remove_empty_symbol (s : string) : replace "" "" s = s.
Proof. simpl. induction s; simpl; congruence. Qed.

(** Removing [old] leaves [s] as it is exactly when [old] is empty or does
    not occur in [s]. *)
Lemma remove_fixed_iff (old s : string) :
  replace old "" s = s <-> old = EmptyString \/ contains old s = false.
Proof.
  split.
  - intros H. destruct old as [|a old]; [now left|]. right.
    destruct (contains (String a old) s) eqn:C; [|reflexivity].
    pose proof (remove_scan_present (String a old) s C ltac:(discriminate)) as L.
    unfold replace in H. rewrite H in L. lia.
  - intros [-> | C].
    + apply remove_empty_symbol.
    + destruct old; [apply remove_empty_symbol|].
      now apply remove_scan_absent.
Qed.

End PyStrFacts.

(* ================================================================== *)
(** ** The sanitizer *)

Module SanitizeFacts.
Import PyStr PyStrFacts.

Lemma remove_all_cons (sym : string) (rest : list string) (t : string) :
  remove_all (sym :: rest) t = remove_all rest (replace sym "" t).
Proof. reflexivity. Qed.

Lemma remove_all_length (symbols : list string) (t : string) :
  length (remove_all symbols t) <= length t.
Proof.
  revert t. induction symbols as [|sym rest IH]; intros t; [simpl; lia|].
  rewrite remove_all_cons. specialize (IH (replace sym "" t)).
  pose proof (remove_length sym t). lia.
Qed.

Lemma remove_all_fixed_iff (symbols : list string) (t : string) :
  remove_all symbols t = t
  <-> Forall (fun sym => sym = EmptyString \/ contains sym t = false) symbols.
Proof.
  revert t. induction symbols as [|sym rest IH]; intros t.
  - split; [constructor | reflexivity].
  - rewrite remove_all_cons. split.
    + intros H.
      assert (E : replace sym "" t = t).
      { pose proof (remove_all_length rest (replace sym "" t)) as L1.
        pose proof (remove_length sym t) as L2.
        rewrite H in L1.
        destruct sym as [|a sym]; [apply remove_empty_symbol|].
        destruct (contains (String a sym) t) eqn:C.
        - pose proof (remove_scan_present _ _ C ltac:(discriminate)) as L3.
          unfold replace in L1. lia.
        - now apply remove_scan_absent. }
      rewrite E in H. constructor.
      * now apply remove_fixed_iff.
      * now apply IH.
    + intros H. inversion H as [|? ? H1 H2]; subst.
      apply remove_fixed_iff in H1. rewrite H1. now apply IH.
Qed.

(** The texts the sanitizer leaves as they are. *)
Lemma sanitize_text_fixed_iff (y : string) (symbols : list string) :
  sanitize_text y symbols = y
  <-> strip y = y
      /\ Forall (fun sym => sym = EmptyString \/ contains sym y = false)
           symbols.
Proof.
  unfold sanitize_text. split.
  - intros H.
    assert (E : strip y = y).
    { apply strip_same_length.
      pose proof (remove_all_length symbols (strip y)) as L1.
      pose proof (strip_length y) as L2. rewrite H in L1. lia. }
    split; [exact E|]. rewrite E in H. now apply remove_all_fixed_iff.
  - intros [E F]. rewrite E. now apply remove_all_fixed_iff.
Qed.

Lemma sanitize_text_no_symbols (x : string) : sanitize_text x [] = strip x.
Proof. reflexivity. Qed.

Lemma remove_all_empty (symbols : list string) :
  remove_all symbols EmptyString = EmptyString.
Proof.
  induction symbols as [|sym rest IH]; [reflexivity|].
  rewrite remove_all_cons. destruct sym; exact IH.
Qed.

Lemma strip_blank (t : string) : lstrip t = EmptyString -> strip t = EmptyString.
Proof. unfold strip. now intros ->. Qed.

End SanitizeFacts.

Example sanitize_review_count : sanitize_text " (42) " ["("; ")"] = "42".
Proof. reflexivity. Qed.

Example sanitize_absent_element (symbols : list string) :
  sanitize_element_text None symbols = None.
Proof. reflexivity. Qed.

(** C4 (as written, refuted): sanitizing twice is not always the same as
    sanitizing once.  On ["( a"] with symbol ["("] the first pass gives
    [" a"], whose leading blank the second pass strips. *)
Lemma sanitize_not_idempotent :
  sanitize_text "( a" ["("] = " a"
  /\ sanitize_text (sanitize_text "( a" ["("]) ["("] = "a"
  /\ ~ (forall x s, sanitize_text (sanitize_text x s) s = sanitize_text x s).
Proof.
  split; [reflexivity|]. split; [reflexivity|].
  intros H. specialize (H "( a" ["("]). vm_compute in H. discriminate H.
Qed.

(** C4 (amended): with the default, empty symbol list the sanitizer is
    idempotent on every text; for an arbitrary symbol list a second pass
    changes nothing exactly when the first result has no leading or
    trailing whitespace and holds no occurrence of a non-empty symbol. *)
Theorem sanitize_idempotent_when :
  (forall x, sanitize_text (sanitize_text x []) [] = sanitize_text x [])
  /\ (forall x s,
        sanitize_text (sanitize_text x s) s = sanitize_text x s
        <-> PyStr.strip (sanitize_text x s) = sanitize_text x s
            /\ Forall (fun sym => sym = EmptyString
                                  \/ PyStr.contains sym (sanitize_text x s) = false)
                 s).
Proof.
  split.
  - intros x. rewrite !SanitizeFacts.sanitize_text_no_symbols.
    apply PyStrFacts.strip_idempotent.
  - intros x s. apply SanitizeFacts.sanitize_text_fixed_iff.
Qed.

(** C10 (as written, refuted): a present element with empty text is not
    turned into [None].  The name link of [card_blank] is found, is a tag
    and therefore true, and its empty text comes back as the empty
    string. *)
Lemma sanitize_empty_tag_not_absent :
  exists a,
    select_one name_selector (soup_of Sample.card_blank) = Some a
    /\ get_text (here a) = ""
    /\ sanitize_element_text (Some a) [] = Some ""
    /\ sanitize_element_text (Some a) [] <> None.
Proof.
  eexists. split; [vm_compute; reflexivity|].
  repeat split; try reflexivity. discriminate.
Qed.

(** C10 (amended): the sanitizer answers [None] exactly when its element
    is false in Python's sense, that is [None] or an empty string object.
    A tag is always true: its text is stripped and returned, and a tag
    whose text is empty or all whitespace gives the empty string. *)
Theorem sanitize_absent_iff_falsy :
  forall (element : option Loc) (symbols : list string),
    (sanitize_element_text element symbols = None <-> truthy element = false)
    /\ (forall l, element = Some l -> is_tag (here l) = true ->
          sanitize_element_text element symbols
          = Some (sanitize_text (get_text (here l)) symbols))
    /\ (forall l, element = Some l -> truthy element = true ->
          PyStr.lstrip (get_text (here l)) = "" ->
          sanitize_element_text element symbols = Some "").
Proof.
  intros element symbols. split; [|split].
  - destruct element as [l|]; simpl; [|tauto].
    destruct (here l) as [s|c s|nm at_ cs]; simpl.
    + destruct (s =? "")%string; simpl; split; congruence.
    + destruct (s =? "")%string; simpl; split; congruence.
    + split; discriminate.
  - intros l -> Ht. unfold sanitize_element_text, truthy.
    destruct (here l); [discriminate Ht | discriminate Ht | reflexivity].
  - intros l -> Ht Hb. unfold sanitize_element_text. rewrite Ht. simpl.
    unfold sanitize_text. rewrite (SanitizeFacts.strip_blank _ Hb).
    now rewrite SanitizeFacts.remove_all_empty.
Qed.

Lemma sanitize_absent_iff_falsy_witness :
  sanitize_element_text
    (Some (soup_of (Elem "span" [] [Text "  "]))) ["("; ")"] = Some "".
Proof.
  apply (proj2 (proj2 (sanitize_absent_iff_falsy
                         (Some (soup_of (Elem "span" [] [Text "  "])))
                         ["("; ")"]))
           (soup_of (Elem "span" [] [Text "  "])));
    reflexivity.
Defined.

(* ================================================================== *)
(** ** The monad *)

Module MonadFacts.

Lemma bind_ok {A B} (m : M A) (k : A -> M B) w a w' :
  m w = (Ok a, w') -> bind m k w = k a w'.
Proof. unfold bind. now intros ->. Qed.

Lemma bind_raise {A B} (m : M A) (k : A -> M B) w e w' :
  m w = (Raise e, w') -> bind m k w = (Raise e, w').
Proof. unfold bind. now intros ->. Qed.

Lemma bind_out_of_fuel {A B} (m : M A) (k : A -> M B) w w' :
  m w = (OutOfFuel, w') -> bind m k w = (OutOfFuel, w').
Proof. unfold bind. now intros ->. Qed.

Lemma pure_ret {A} (a : A) : pure (ret a).
Proof. now exists (Ok a). Qed.

Lemma pure_raise {A} (e : Exn) : pure (@raise A e).
Proof. now exists (Raise e). Qed.

Lemma pure_item {A} (xs : list A) (i : nat) : pure (item xs i).
Proof. unfold item. destruct (nth_error xs i); [apply pure_ret | apply pure_raise]. Qed.

Lemma pure_bind {A B} (m : M A) (k : A -> M B) :
  pure m -> (forall a, pure (k a)) -> pure (bind m k).
Proof.
  intros [r Hm] Hk. destruct r as [a| e |].
  - destruct (Hk a) as [r' Hr']. exists r'. intros w.
    now rewrite (bind_ok _ _ _ _ _ (Hm w)).
  - exists (Raise e). intros w. now rewrite (bind_raise _ _ _ _ _ (Hm w)).
  - exists OutOfFuel. intros w. now rewrite (bind_out_of_fuel _ _ _ _ (Hm w)).
Qed.

Lemma finite_ret {A} (a : A) : finite (ret a).
Proof. intros w. discriminate. Qed.

Lemma finite_bind {A B} (m : M A) (k : A -> M B) :
  finite m -> (forall a, finite (k a)) -> finite (bind m k).
Proof.
  intros Hm Hk w. unfold bind. specialize (Hm w).
  destruct (m w) as [[a| e |] w1]; simpl in *.
  - apply Hk.
  - discriminate.
  - congruence.
Qed.

Lemma finite_pure {A} (m : M A) :
  pure m -> (forall w, m w <> (OutOfFuel, w)) -> finite m.
Proof.
  intros [r Hr] H w. specialize (H w). rewrite Hr in *. simpl.
  intros ->. now apply H.
Qed.

End MonadFacts.

(* ================================================================== *)
(** ** Positions in a page *)

Example text_skips_special_strings :
  get_text (Elem "p" []
              [Text "a"; Elem "script" [] [Special ScriptStr "x"];
               Special CommentStr "c"; Elem "b" [] [Text "b"]])
  = "ab"
  /\ get_text (Elem "script" [] [Special ScriptStr "x"]) = "x".
Proof. split; reflexivity. Qed.

Example string_of_only_child :
  node_string (Elem "h3" [] [Elem "b" [] [Text "x"]]) = Some "x"
  /\ node_string (Elem "h3" [] [Special CommentStr "x"]) = Some "x"
  /\ node_string (Elem "h3" [] [Text "x"; Elem "b" [] []]) = None.
Proof. repeat split. Qed.






(* ================================================================== *)
(** ** The detail stage *)

Section DetailFacts.

Variable self : YelpCrawler.

Import MonadFacts.

Lemma reviews_loop_pure soup reviews reviews_items :
  pure (reviews_loop self soup reviews reviews_items).
Proof.
  revert reviews_items.
  induction reviews as [|review rest IH]; intros items; simpl.
  - apply pure_ret.
  - destruct (Z.of_nat (List.length items) >=? number_of_reviews self)%Z.
    + apply pure_ret.
    + apply pure_bind; [apply pure_item | intros d; apply IH].
Qed.

Lemma website_of_pure soup : pure (website_of soup).
Proof.
  unfold website_of.
  destruct (find_all "p" (Some "Business website") soup) as [|first rest].
  - apply pure_ret.
  - destruct (parent first).
    + apply pure_bind; [apply pure_item | intros; apply pure_ret].
    + apply pure_raise.
Qed.

Lemma extract_details_pure soup : pure (extract_details self soup).
Proof.
  unfold extract_details. apply pure_bind; [apply website_of_pure|].
  intros site. destruct (select_one reviews_list_selector soup).
  - apply pure_bind; [apply reviews_loop_pure | intros; apply pure_ret].
  - apply pure_ret.
Qed.

Lemma extract_details_world soup w r w' :
  extract_details self soup w = (r, w') -> w' = w.
Proof.
  destruct (extract_details_pure soup) as [r0 H]. rewrite H. congruence.
Qed.

(** The loop with its [break], in closed form: nothing is added once the
    cap is reached or the items are used up; otherwise the page-level date
    block is looked up (and the lookup fails if the page has fewer than two
    such blocks), and the records of the next items follow, up to the
    cap. *)
Lemma reviews_loop_closed_form soup reviews items w :
  reviews_loop self soup reviews items w
  = (if (Z.of_nat (List.length items) >=? number_of_reviews self)%Z
     then Ok items
     else match reviews with
          | [] => Ok items
          | _ :: _ =>
              match nth_error (select date_block_selector soup) 1 with
              | None => Raise IndexError
              | Some d =>
                  Ok (items
                      ++ map (review_record d)
                           (firstn (Z.to_nat (number_of_reviews self)
                                    - List.length items) reviews))
              end
          end,
     w).
Proof.
  revert items. induction reviews as [|review rest IH]; intros items.
  - simpl. now destruct (_ >=? _)%Z.
  - cbn [reviews_loop].
    destruct (Z.of_nat (List.length items) >=? number_of_reviews self)%Z eqn:G;
      [reflexivity|].
    unfold item.
    destruct (nth_error (select date_block_selector soup) 1) as [d|] eqn:D;
      [|reflexivity].
    rewrite (bind_ok _ _ w d w) by reflexivity.
    rewrite IH. f_equal.
    rewrite Z.geb_leb in G. apply Z.leb_gt in G.
    rewrite length_app. simpl List.length.
    destruct (Z.to_nat (number_of_reviews self) - List.length items)
      as [|k] eqn:K; [lia|].
    replace (Z.to_nat (number_of_reviews self) - (List.length items + 1))
      with k by lia.
    destruct (Z.of_nat (List.length items + 1) >=? number_of_reviews self)%Z
      eqn:G'.
    + rewrite Z.geb_leb in G'. apply Z.leb_le in G'.
      assert (k = 0) as -> by lia. reflexivity.
    + destruct rest as [|r2 rest'].
      * cbn [firstn map]. now rewrite firstn_nil.
      * cbn [firstn map]. now rewrite <- app_assoc.
Qed.

Lemma extract_details_closed_form soup w :
  extract_details self soup w
  = (match fst (website_of soup w) with
     | Ok site =>
         match firstn (Z.to_nat (number_of_reviews self)) (review_items soup)
         with
         | [] => Ok ([], site)
         | (_ :: _) as chosen =>
             match nth_error (select date_block_selector soup) 1 with
             | None => Raise IndexError
             | Some d => Ok (map (review_record d) chosen, site)
             end
         end
     | Raise e => Raise e
     | OutOfFuel => OutOfFuel
     end,
     w).
Proof.
  unfold extract_details, review_items.
  destruct (website_of_pure soup) as [rw Hw]. unfold bind at 1.
  rewrite Hw. simpl fst.
  destruct rw as [site| e |]; [|reflexivity|reflexivity].
  destruct (select_one reviews_list_selector soup) as [block|];
    [|now rewrite firstn_nil].
  unfold bind. rewrite reviews_loop_closed_form. simpl List.length.
  change (Z.of_nat 0) with 0%Z. rewrite Nat.sub_0_r.
  destruct (0 >=? number_of_reviews self)%Z eqn:G.
  - rewrite Z.geb_leb in G. apply Z.leb_le in G.
    replace (Z.to_nat (number_of_reviews self)) with 0 by lia.
    reflexivity.
  - rewrite Z.geb_leb in G. apply Z.leb_gt in G.
    destruct (Z.to_nat (number_of_reviews self)) as [|k] eqn:K; [lia|].
    destruct (find_all "li" None block) as [|r rest]; [reflexivity|].
    cbn [firstn].
    now destruct (nth_error (select date_block_selector soup) 1).
Qed.

Lemma website_of_finite soup : finite (website_of soup).
Proof.
  intros w. unfold website_of.
  destruct (find_all "p" (Some "Business website") soup) as [|first rest];
    [discriminate|].
  destruct (parent first) as [p|]; [|discriminate].
  unfold bind, item.
  destruct (nth_error (find_all "p" None p) 1); discriminate.
Qed.

Lemma extract_details_finite soup : finite (extract_details self soup).
Proof.
  intros w. rewrite extract_details_closed_form. cbn [fst].
  pose proof (website_of_finite soup w) as F.
  destruct (fst (website_of soup w)) as [site| e |];
    [|discriminate|congruence].
  destruct (firstn _ _); [discriminate|].
  destruct (nth_error (select date_block_selector soup) 1); discriminate.
Qed.


End DetailFacts.

(** C5: the review list a detail page yields is never longer than the cap
    (for a negative cap it is empty), and it consists of the records of the
    first [number_of_reviews] items of the page's reviews list, in document
    order: exactly that many when the list is longer than the cap.  The
    list is produced whenever the website lookup succeeds and the page has
    the second date block the loop reads. *)
Theorem reviews_capped :
  forall (self : YelpCrawler) (soup : Loc) (w : World),
    let n := Z.to_nat (number_of_reviews self) in
    (forall revs site w',
        extract_details self soup w = (Ok (revs, site), w') ->
        List.length revs <= n
        /\ (n < List.length (review_items soup) -> List.length revs = n)
        /\ (forall d, nth_error (select date_block_selector soup) 1 = Some d ->
              revs = map (review_record d) (firstn n (review_items soup))))
    /\ (forall site d,
          website_of soup w = (Ok site, w) ->
          nth_error (select date_block_selector soup) 1 = Some d ->
          extract_details self soup w
          = (Ok (map (review_record d) (firstn n (review_items soup)), site),
             w)).
Proof.
  intros self soup w n. split.
  - intros revs site w' H. rewrite extract_details_closed_form in H.
    fold n in H.
    destruct (fst (website_of soup w)) as [site0| e |]; try discriminate H.
    pose proof (firstn_le_length n (review_items soup)) as L.
    pose proof (length_firstn n (review_items soup)) as L'.
    destruct (firstn n (review_items soup)) as [|r chosen] eqn:F.
    + injection H as <- _ _. simpl in *. repeat split; intros; lia.
    + destruct (nth_error (select date_block_selector soup) 1) as [d|];
        [|discriminate H].
      injection H as <- _ _. simpl List.length in *.
      rewrite length_map.
      repeat split; try lia.
      intros d' [= <-]. reflexivity.
  - intros site d Hs Hd. rewrite extract_details_closed_form.
    fold n. rewrite Hs, Hd. simpl fst.
    now destruct (firstn n (review_items soup)).
Qed.

Lemma reviews_capped_witness :
  match extract_details (Sample.crawler None) (soup_of Sample.detail_page)
          initial with
  | (Ok (revs, _), _) => List.length revs = 2
  | _ => False
  end.
Proof.
  destruct (extract_details (Sample.crawler None)
              (soup_of Sample.detail_page) initial)
    as [[[revs site]| e |] w'] eqn:E.
  - destruct (proj1 (reviews_capped (Sample.crawler None)
                       (soup_of Sample.detail_page) initial)
                revs site w' E) as (_ & H & _).
    apply H. vm_compute. lia.
  - vm_compute in E. discriminate E.
  - vm_compute in E. discriminate E.
Defined.

Example eight_reviews_capped_at_three :
  List.length (review_items (soup_of Sample.eight_reviews_page)) = 8
  /\ exists revs,
       extract_details (mkCrawler "" 3 None)
         (soup_of Sample.eight_reviews_page) initial
       = (Ok (revs, None), initial)
       /\ map reviewer_name revs = [Some "Ann"; Some "Bob"; Some "Cy"].
Proof.
  split; [vm_compute; reflexivity|].
  eexists. split; vm_compute; reflexivity.
Qed.

(** C2 (the code fails here): two lookups of the detail stage index a list
    without checking its length.  A page that has the website label but no
    second paragraph beside it, and a page whose reviews list has an item
    but fewer than two date blocks, both end in [IndexError] instead of an
    absent field. *)
Theorem detail_lookups_raise :
  website_of (soup_of Sample.label_only_page) initial
  = (Raise IndexError, initial)
  /\ extract_details (Sample.crawler None) (soup_of Sample.label_only_page)
       initial
     = (Raise IndexError, initial)
  /\ website_of (soup_of Sample.bare_review_page) initial = (Ok None, initial)
  /\ extract_details (Sample.crawler None) (soup_of Sample.bare_review_page)
       initial
     = (Raise IndexError, initial).
Proof. repeat split; vm_compute; reflexivity. Qed.

(* ================================================================== *)
(** ** The listing stage *)

Section ListingFacts.

Variable web : Web.
Variable self : YelpCrawler.

Import MonadFacts.

Lemma requests_get_answer rq w r :
  web (sent w) rq = Answer r ->
  requests_get web rq w = (Ok r, after_request w rq).
Proof. unfold requests_get. now intros ->. Qed.

Lemma requests_get_no_answer rq w :
  web (sent w) rq = NoAnswer ->
  requests_get web rq w = (Raise RequestException, after_request w rq).
Proof. unfold requests_get. now intros ->. Qed.

Lemma get_object_reviews_cases object_url w :
  get_object_reviews web self object_url w
  = match web (sent w) (mkRequest object_url None) with
    | NoAnswer =>
        (Raise RequestException, after_request w (mkRequest object_url None))
    | Answer r =>
        extract_details self (soup_of (content r))
          (after_request w (mkRequest object_url None))
    end.
Proof.
  unfold get_object_reviews, bind, requests_get.
  now destruct (web (sent w) (mkRequest object_url None)).
Qed.

Lemma get_object_reviews_sent object_url w r w' :
  get_object_reviews web self object_url w = (r, w') ->
  w' = after_request w (mkRequest object_url None) /\ r <> OutOfFuel.
Proof.
  rewrite get_object_reviews_cases.
  destruct (web (sent w) (mkRequest object_url None)) as [|resp].
  - intros [= <- <-]. split; [reflexivity | discriminate].
  - intros H. pose proof (extract_details_world _ _ _ _ _ H) as ->.
    split; [reflexivity|].
    pose proof (extract_details_finite self (soup_of (content resp))
                  (after_request w (mkRequest object_url None))) as F.
    now rewrite H in F.
Qed.

Lemma summary_link_cases card :
  (yelp_url (summary card) = None
   /\ truthy (select_one name_selector card) = false)
  \/ (exists u, yelp_url (summary card) = Some u
                /\ (u =? "")%string = false
                /\ truthy (select_one name_selector card) = true).
Proof.
  unfold summary. cbn [yelp_url].
  destruct (select_one name_selector card) as [a|] eqn:E.
  - destruct (truthy (Some a)) eqn:T.
    + right. eexists. repeat split.
    + now left.
  - now left.
Qed.

Lemma get_object_data_without_link card w :
  yelp_url (summary card) = None ->
  get_object_data web self card w
  = if writable web (fix_html w) (here card)
    then (Ok (summary card), after_dump w (here card))
    else (Raise OSError, w).
Proof.
  intros H. destruct (summary_link_cases card) as [[_ T] | (u & E & _)];
    [|congruence].
  unfold get_object_data. cbv zeta. fold (summary card).
  rewrite H, T. unfold bind, ret, write_fix_html. cbn [negb].
  now destruct (writable web (fix_html w) (here card)).
Qed.

Lemma get_object_data_with_link card w u :
  yelp_url (summary card) = Some u ->
  get_object_data web self card w
  = match get_object_reviews web self u w with
    | (Ok found, w1) => (Ok (enriched (summary card) found), w1)
    | (Raise e, w1) => (Raise e, w1)
    | (OutOfFuel, w1) => (OutOfFuel, w1)
    end.
Proof.
  intros H. destruct (summary_link_cases card) as [[E _] | (u' & E & N & T)];
    [congruence|].
  assert (u' = u) as -> by congruence.
  unfold get_object_data. cbv zeta. fold (summary card).
  rewrite H, N, T. unfold bind.
  destruct (get_object_reviews web self u w) as [[found| e |] w1];
    [|reflexivity|reflexivity].
  unfold enriched. rewrite H. reflexivity.
Qed.

End ListingFacts.

(* ================================================================== *)
(** ** Cards and pages *)

Section RunFacts.

Variable web : Web.
Variable self : YelpCrawler.

Import MonadFacts.

Lemma details_only_filter extra :
  details_only extra -> filter is_listing extra = [].
Proof.
  induction 1 as [|rq extra H _ IH]; simpl; [reflexivity|].
  now rewrite H.
Qed.

(** What one card does to the world: a card without a link requests
    nothing and is dumped to the debug file, unless the write fails; a
    card with a link requests its detail page once and is not dumped. *)
Lemma get_object_data_effect card w r w' :
  get_object_data web self card w = (r, w') ->
  r <> OutOfFuel
  /\ ((yelp_url (summary card) = None
       /\ ((r = Ok (summary card) /\ w' = after_dump w (here card))
           \/ (r = Raise OSError /\ w' = w)))
      \/ (exists u,
             yelp_url (summary card) = Some u
             /\ w' = after_request w (mkRequest u None)
             /\ forall b, r = Ok b -> exists found,
                  b = enriched (summary card) found)).
Proof.
  destruct (summary_link_cases card) as [[E _] | (u & E & _ & _)].
  - rewrite (get_object_data_without_link web self card w E).
    destruct (writable web (fix_html w) (here card));
      intros [= <- <-]; (split; [discriminate|]); left; split; trivial;
      [now left | now right].
  - rewrite (get_object_data_with_link web self card w u E).
    destruct (get_object_reviews web self u w) as [r1 w1] eqn:G.
    destruct (get_object_reviews_sent web self u w r1 w1 G) as [-> F].
    destruct r1 as [found| e |]; [| |congruence];
      intros [= <- <-]; (split; [discriminate|]); right; exists u;
      repeat split; trivial.
    + intros b [= <-]. now exists found.
    + discriminate.
Qed.

Lemma get_object_data_sent card w r w' :
  get_object_data web self card w = (r, w') ->
  exists extra, sent w' = sent w ++ extra /\ details_only extra.
Proof.
  intros H. destruct (get_object_data_effect card w r w' H)
    as [_ [(_ & [(_ & ->) | (_ & ->)]) | (u & _ & -> & _)]].
  - exists []. split; [simpl; now rewrite app_nil_r | constructor].
  - exists []. split; [now rewrite app_nil_r | constructor].
  - exists [mkRequest u None]. split; [reflexivity|].
    constructor; [reflexivity | constructor].
Qed.

Lemma cards_loop_cons card rest objects w :
  cards_loop web self (card :: rest) objects w
  = match get_object_data web self card w with
    | (Ok object_data, w1) =>
        cards_loop web self rest (objects ++ [object_data]) w1
    | (Raise e, w1) => (Raise e, w1)
    | (OutOfFuel, w1) => (OutOfFuel, w1)
    end.
Proof. reflexivity. Qed.

Lemma cards_loop_sent cards objects w r w' :
  cards_loop web self cards objects w = (r, w') ->
  r <> OutOfFuel
  /\ exists extra, sent w' = sent w ++ extra /\ details_only extra.
Proof.
  revert objects w. induction cards as [|card rest IH]; intros objects w.
  - intros [= <- <-]. split; [discriminate|].
    exists []. split; [now rewrite app_nil_r | constructor].
  - rewrite cards_loop_cons.
    destruct (get_object_data web self card w) as [r1 w1] eqn:G.
    destruct (get_object_data_effect card w r1 w1 G) as [F _].
    destruct (get_object_data_sent card w r1 w1 G) as (x1 & E1 & D1).
    destruct r1 as [b| e |]; [| |congruence].
    + intros H. destruct (IH _ _ H) as (F2 & x2 & E2 & D2).
      split; [exact F2|]. exists (x1 ++ x2).
      split; [now rewrite E2, E1, app_assoc | now apply Forall_app].
    + intros [= <- <-]. split; [discriminate|]. now exists x1.
Qed.

Lemma summary_unenriched card :
  unenriched_without_link (summary card).
Proof. intros _. now split. Qed.

Lemma get_object_data_unenriched card w b w' :
  get_object_data web self card w = (Ok b, w') ->
  unenriched_without_link b.
Proof.
  intros H. destruct (get_object_data_effect card w _ w' H)
    as [_ [(_ & [(E & _) | (E & _)]) | (u & E & _ & F)]].
  - injection E as ->. apply summary_unenriched.
  - discriminate E.
  - destruct (F b eq_refl) as [found ->]. intros N.
    unfold enriched in N. cbn [yelp_url] in N. congruence.
Qed.

Lemma cards_loop_unenriched cards objects w objects' w' :
  Forall unenriched_without_link objects ->
  cards_loop web self cards objects w = (Ok objects', w') ->
  Forall unenriched_without_link objects'.
Proof.
  revert objects w. induction cards as [|card rest IH]; intros objects w Hob.
  - now intros [= <- <-].
  - rewrite cards_loop_cons.
    destruct (get_object_data web self card w) as [[b| e |] w1] eqn:G;
      [|discriminate|discriminate].
    apply IH. apply Forall_app. split; [exact Hob|].
    constructor; [|constructor].
    exact (get_object_data_unenriched card w b w1 G).
Qed.

(** One turn of the [while True] loop. *)
Lemma pages_loop_step fuel page objects w :
  pages_loop web self (S fuel) page objects w
  = if beyond_last_page self (page + 1) then (Ok objects, w)
    else
      match web (sent w) (page_request self page) with
      | NoAnswer =>
          (Raise RequestException, after_request w (page_request self page))
      | Answer response =>
          let soup := soup_of (content response) in
          if is_terminal soup
          then (Ok objects, after_request w (page_request self page))
          else
            match cards_loop web self (select card_selector soup) objects
                    (after_request w (page_request self page)) with
            | (Ok objects', w2) =>
                pages_loop web self fuel (page + 1) objects' w2
            | (Raise e, w2) => (Raise e, w2)
            | (OutOfFuel, w2) => (OutOfFuel, w2)
            end
      end.
Proof.
  cbn [pages_loop].
  destruct (beyond_last_page self (page + 1)); [reflexivity|].
  unfold bind at 1. unfold requests_get, page_request.
  destruct (web (sent w) _) as [|response]; [reflexivity|].
  cbv zeta. destruct (is_terminal _); [reflexivity|].
  unfold bind. reflexivity.
Qed.

Lemma pages_loop_extends fuel page objects w r w' :
  pages_loop web self fuel page objects w = (r, w') ->
  exists more, sent w' = sent w ++ more.
Proof.
  revert page objects w r w'.
  induction fuel as [|fuel IH]; intros page objects w r w'.
  - intros [= <- <-]. exists []. now rewrite app_nil_r.
  - rewrite pages_loop_step.
    destruct (beyond_last_page self (page + 1)).
    { intros [= <- <-]. exists []. now rewrite app_nil_r. }
    destruct (web (sent w) (page_request self page)) as [|response].
    { intros [= <- <-]. now exists [page_request self page]. }
    cbv zeta. destruct (is_terminal _).
    { intros [= <- <-]. now exists [page_request self page]. }
    destruct (cards_loop _ _ _ _ _) as [r2 w2] eqn:C.
    destruct (cards_loop_sent _ _ _ _ _ C) as (_ & extra & E & _).
    cbn [after_request sent] in E.
    destruct r2 as [objects'| e |].
    + intros H. destruct (IH _ _ _ _ _ H) as [more M].
      exists (page_request self page :: extra ++ more).
      rewrite M, E, <- !app_assoc. reflexivity.
    + intros [= <- <-]. exists (page_request self page :: extra).
      now rewrite E, <- app_assoc.
    + intros [= <- <-]. exists (page_request self page :: extra).
      now rewrite E, <- app_assoc.
Qed.

Lemma page_requests_succ p m :
  page_requests self p (S m)
  = page_request self p :: page_requests self (p + 1) m.
Proof.
  unfold page_requests. cbn [seq map]. f_equal.
  - f_equal. cbn. lia.
  - rewrite <- seq_shift, map_map. apply map_ext. intros i.
    f_equal. lia.
Qed.

Lemma page_requests_one p : page_requests self p 1 = [page_request self p].
Proof. rewrite page_requests_succ. reflexivity. Qed.

(** With [max_pages = k] the listing requests of a run from page counter
    [page] on are those for pages [page], [page + 1], ... and there are at
    most [k - page] of them. *)
Lemma pages_loop_bound fuel page objects w r w' k :
  max_pages self = Some k ->
  pages_loop web self fuel page objects w = (r, w') ->
  exists m,
    m <= Z.to_nat (k - page)
    /\ filter is_listing (sent w')
       = filter is_listing (sent w) ++ page_requests self page m.
Proof.
  intros K. revert page objects w r w'.
  induction fuel as [|fuel IH]; intros page objects w r w'.
  - intros [= <- <-]. exists 0. split; [lia | now rewrite app_nil_r].
  - rewrite pages_loop_step. unfold beyond_last_page. rewrite K.
    destruct (page + 1 >? k)%Z eqn:B.
    { intros [= <- <-]. exists 0. split; [lia | now rewrite app_nil_r]. }
    assert (L : (page + 1 <= k)%Z).
    { rewrite Z.gtb_ltb in B. now apply Z.ltb_ge in B. }
    assert (one : forall w1 extra,
               sent w1 = sent (after_request w (page_request self page))
                         ++ extra ->
               details_only extra ->
               filter is_listing (sent w1)
               = filter is_listing (sent w) ++ page_requests self page 1).
    { intros w1 extra E D. rewrite E. cbn [after_request sent].
      rewrite !filter_app, (details_only_filter extra D), app_nil_r.
      now rewrite page_requests_one. }
    destruct (web (sent w) (page_request self page)) as [|response].
    { intros [= <- <-]. exists 1. split; [lia|].
      apply (one _ []); [now rewrite app_nil_r | constructor]. }
    cbv zeta. destruct (is_terminal _).
    { intros [= <- <-]. exists 1. split; [lia|].
      apply (one _ []); [now rewrite app_nil_r | constructor]. }
    destruct (cards_loop _ _ _ _ _) as [r2 w2] eqn:C.
    destruct (cards_loop_sent _ _ _ _ _ C) as (_ & extra & E & D).
    destruct r2 as [objects'| e |].
    + intros H. destruct (IH _ _ _ _ _ H) as (m & Hm & F).
      exists (S m). split; [lia|].
      rewrite page_requests_succ, F, (one w2 extra E D), page_requests_one.
      now rewrite <- app_assoc.
    + intros [= <- <-]. exists 1. split; [lia | exact (one w2 extra E D)].
    + intros [= <- <-]. exists 1. split; [lia | exact (one w2 extra E D)].
Qed.

(** With [max_pages = k], [k - page] turns and one more are enough for the
    loop to end. *)
Lemma pages_loop_finishes fuel page objects w k :
  max_pages self = Some k ->
  Z.to_nat (k - page) < fuel ->
  fst (pages_loop web self fuel page objects w) <> OutOfFuel.
Proof.
  intros K. revert page objects w.
  induction fuel as [|fuel IH]; intros page objects w Hf; [lia|].
  rewrite pages_loop_step. unfold beyond_last_page. rewrite K.
  destruct (page + 1 >? k)%Z eqn:B; [discriminate|].
  rewrite Z.gtb_ltb in B. apply Z.ltb_ge in B.
  destruct (web (sent w) (page_request self page)) as [|response];
    [discriminate|].
  cbv zeta. destruct (is_terminal _); [discriminate|].
  destruct (cards_loop _ _ _ _ _) as [r2 w2] eqn:C.
  destruct (cards_loop_sent _ _ _ _ _ C) as (F & _).
  destruct r2 as [objects'| e |]; [|discriminate|congruence].
  apply IH. lia.
Qed.

Lemma split_at_request {A} (pre post x more : list A) (a : A) :
  pre ++ a :: post = x ++ more ->
  (exists x2, x = pre ++ a :: x2)
  \/ (exists l, pre = x ++ l /\ more = l ++ a :: post).
Proof.
  revert pre. induction x as [|b x IH]; intros pre H.
  - right. now exists pre.
  - destruct pre as [|c pre]; simpl in H.
    + injection H as <- _. left. now exists x.
    + injection H as <- H. destruct (IH pre H) as [[x2 ->] | (l & -> & ->)].
      * left. now exists x2.
      * right. now exists l.
Qed.

(** A listing page that carries the sentinel is the last thing the loop
    requests, and the loop returns what it has collected. *)
Lemma pages_loop_stops_at_sentinel fuel page objects w r w'
    pre rq post response :
  pages_loop web self fuel page objects w = (r, w') ->
  sent w' = sent w ++ pre ++ rq :: post ->
  is_listing rq = true ->
  web (sent w ++ pre) rq = Answer response ->
  is_terminal (soup_of (content response)) = true ->
  post = [] /\ exists objects', r = Ok objects'.
Proof.
  revert page objects w pre r w'.
  induction fuel as [|fuel IH];
    intros page objects w pre r w' Hrun Hs Hl Hw Ht.
  - injection Hrun as <- <-.
    rewrite <- (app_nil_r (sent w)) in Hs at 1.
    apply app_inv_head in Hs. now destruct pre.
  - rewrite pages_loop_step in Hrun.
    assert (nothing : w' = w -> False).
    { intros ->. rewrite <- (app_nil_r (sent w)) in Hs at 1.
      apply app_inv_head in Hs. now destruct pre. }
    assert (first : forall x2, page_request self page :: x2
                               = pre ++ rq :: post ->
                    details_only x2 ->
                    pre = [] /\ rq = page_request self page /\ post = x2).
    { intros x2 E D. destruct pre as [|c pre]; simpl in E.
      - injection E as <- <-. now repeat split.
      - injection E as <- E. exfalso.
        assert (I : In rq x2) by (rewrite E; apply in_elt).
        unfold details_only in D. rewrite Forall_forall in D.
        specialize (D rq I). congruence. }
    destruct (beyond_last_page self (page + 1)).
    { injection Hrun as <- <-. now destruct nothing. }
    destruct (web (sent w) (page_request self page)) as [|resp0] eqn:W.
    { injection Hrun as <- <-. cbn [after_request sent] in Hs.
      apply app_inv_head in Hs.
      destruct (first [] Hs ltac:(constructor)) as (-> & -> & _).
      rewrite app_nil_r in Hw. congruence. }
    cbv zeta in Hrun.
    destruct (is_terminal (soup_of (content resp0))) eqn:T.
    { injection Hrun as <- <-. cbn [after_request sent] in Hs.
      apply app_inv_head in Hs.
      destruct (first [] Hs ltac:(constructor)) as (_ & _ & ->).
      split; [reflexivity | now exists objects]. }
    destruct (cards_loop _ _ _ _ _) as [r2 w2] eqn:C.
    destruct (cards_loop_sent _ _ _ _ _ C) as (_ & extra & E & D).
    cbn [after_request sent] in E.
    assert (not_first : forall x2, page_request self page :: x2
                                   = pre ++ rq :: post ->
                        details_only x2 -> False).
    { intros x2 E2 D2. destruct (first x2 E2 D2) as (-> & -> & _).
      rewrite app_nil_r in Hw. congruence. }
    destruct r2 as [objects'| e |].
    + destruct (pages_loop_extends _ _ _ _ _ _ Hrun) as [more M].
      rewrite M, E, <- !app_assoc in Hs. apply app_inv_head in Hs.
      symmetry in Hs.
      change (pre ++ rq :: post = (page_request self page :: extra) ++ more)
        in Hs.
      destruct (split_at_request _ _ _ _ _ Hs) as [[x2 X] | (l & -> & ->)].
      * exfalso. destruct pre as [|c pre]; simpl in X.
        -- injection X as X _.
           rewrite app_nil_r in Hw. congruence.
        -- injection X as _ X.
           assert (I : In rq extra) by (rewrite X; apply in_elt).
           unfold details_only in D. rewrite Forall_forall in D.
           specialize (D rq I). congruence.
      * apply (IH _ _ _ l _ _ Hrun); trivial.
        rewrite E, <- !app_assoc. cbn [app] in *. exact Hw.
    + injection Hrun as <- <-. rewrite E, <- app_assoc in Hs.
      apply app_inv_head in Hs. now destruct (not_first extra Hs D).
    + injection Hrun as <- <-. rewrite E, <- app_assoc in Hs.
      apply app_inv_head in Hs. now destruct (not_first extra Hs D).
Qed.

(** A turn entered below the page cap requests its listing page first. *)
Lemma pages_loop_first_request fuel page objects w r w' :
  beyond_last_page self (page + 1) = false ->
  pages_loop web self (S fuel) page objects w = (r, w') ->
  exists more, sent w' = sent w ++ page_request self page :: more.
Proof.
  intros B. rewrite pages_loop_step, B.
  destruct (web (sent w) (page_request self page)) as [|response].
  { intros [= _ <-]. now exists []. }
  cbv zeta. destruct (is_terminal _).
  { intros [= _ <-]. now exists []. }
  destruct (cards_loop _ _ _ _ _) as [r2 w2] eqn:C.
  destruct (cards_loop_sent _ _ _ _ _ C) as (_ & extra & E & _).
  cbn [after_request sent] in E. rewrite <- app_assoc in E.
  destruct r2 as [objects2| e |].
  - intros H. destruct (pages_loop_extends _ _ _ _ _ _ H) as [more M].
    exists (extra ++ more). rewrite M, E, <- app_assoc. reflexivity.
  - intros [= _ <-]. now exists extra.
  - intros [= _ <-]. now exists extra.
Qed.

Lemma pages_loop_unenriched fuel page objects w objects' w' :
  Forall unenriched_without_link objects ->
  pages_loop web self fuel page objects w = (Ok objects', w') ->
  Forall unenriched_without_link objects'.
Proof.
  revert page objects w objects' w'.
  induction fuel as [|fuel IH]; intros page objects w objects' w' Hob;
    [discriminate|].
  rewrite pages_loop_step.
  destruct (beyond_last_page self (page + 1)); [now intros [= <- <-]|].
  destruct (web (sent w) (page_request self page)) as [|response];
    [discriminate|].
  cbv zeta. destruct (is_terminal _); [now intros [= <- <-]|].
  destruct (cards_loop _ _ _ _ _) as [[objects2| e |] w2] eqn:C;
    [|discriminate|discriminate].
  apply IH. exact (cards_loop_unenriched _ _ _ _ _ Hob C).
Qed.

End RunFacts.

(* ================================================================== *)
(** ** Pagination *)

(** C6: with [max_pages = k] a run requests at most [k] listing pages
    (none when [k] is negative), namely those at offsets 0, 10, 20, ...;
    the page counter starts at 0 and is raised before it is compared with
    [k], so a turn entered with the counter at [k] leaves without a
    request; and [k + 1] turns are enough for the loop to end. *)
Theorem at_most_max_pages_fetches :
  forall (web : Web) (search : string) (n k : Z) (w : World),
    let self := mkCrawler search n (Some k) in
    (forall fuel, exists m,
        m <= Z.to_nat k
        /\ filter is_listing (sent (snd (get_objects_list web self fuel w)))
           = filter is_listing (sent w) ++ page_requests self 0 m)
    /\ (forall fuel objects,
          pages_loop web self (S fuel) k objects w = (Ok objects, w))
    /\ (forall spare,
          fst (get_objects_list web self (S (Z.to_nat k) + spare) w)
          <> OutOfFuel).
Proof.
  intros web search n k w self. split; [|split].
  - intros fuel.
    destruct (get_objects_list web self fuel w) as [r w'] eqn:E.
    destruct (pages_loop_bound web self fuel 0 [] w r w' k eq_refl E)
      as (m & Hm & F).
    exists m. split; [lia | exact F].
  - intros fuel objects. rewrite pages_loop_step.
    unfold beyond_last_page. cbn [max_pages self].
    replace (k + 1 >? k)%Z with true; [reflexivity|].
    symmetry. rewrite Z.gtb_ltb. apply Z.ltb_lt. lia.
  - intros spare. apply (pages_loop_finishes web self _ 0 [] w k eq_refl).
    rewrite Z.sub_0_r. lia.
Qed.

Lemma find_all_nonempty_iff name str soup :
  find_all name str soup <> []
  <-> exists h, In h (descendants soup) /\ find_match name str h = true.
Proof.
  unfold find_all. split.
  - intros H.
    destruct (filter (find_match name str) (descendants soup)) as [|h t] eqn:F;
      [congruence|].
    exists h. apply filter_In. rewrite F. now left.
  - intros (h & I & M) E.
    assert (X : In h (filter (find_match name str) (descendants soup)))
      by (apply filter_In; now split).
    rewrite E in X. exact X.
Qed.

Lemma find_match_heading s h :
  find_match "h3" (Some s) h = true <-> heading_with_text s h.
Proof.
  unfold find_match, heading_with_text. split.
  - destruct (here h) as [t|c t|nm attrs cs] eqn:E;
      [discriminate|discriminate|].
    intros H. apply andb_true_iff in H. destruct H as [N S].
    apply String.eqb_eq in N. subst nm. exists attrs, cs.
    split; [reflexivity|].
    destruct (node_string (Elem "h3" attrs cs)) as [t|]; [|discriminate].
    apply String.eqb_eq in S. now subst.
  - intros (attrs & cs & E & S). rewrite S, E.
    now rewrite !String.eqb_refl.
Qed.

(** C7: a page is terminal exactly when it holds an [h3] whose string is
    the sentinel, character for character (a heading with one more
    character is not terminal); and once a listing page is terminal the run
    requests nothing more and returns what it has collected. *)
Theorem terminal_iff_sentinel_heading :
  (forall soup,
      is_terminal soup = true
      <-> exists h, In h (descendants soup) /\ heading_with_text error_text h)
  /\ is_terminal (soup_of Sample.near_miss_page) = false
  /\ (forall web self fuel w r w' pre rq post response,
        get_objects_list web self fuel w = (r, w') ->
        sent w' = sent w ++ pre ++ rq :: post ->
        is_listing rq = true ->
        web (sent w ++ pre) rq = Answer response ->
        is_terminal (soup_of (content response)) = true ->
        post = [] /\ exists objects, r = Ok objects).
Proof.
  split; [|split].
  - intros soup. unfold is_terminal.
    pose proof (find_all_nonempty_iff "h3" (Some error_text) soup) as N.
    split.
    + intros H.
      destruct (find_all "h3" (Some error_text) soup) eqn:F;
        [discriminate|].
      destruct (proj1 N ltac:(discriminate)) as (h & I & M).
      exists h. split; [exact I | now apply find_match_heading].
    + intros (h & I & M).
      destruct (find_all "h3" (Some error_text) soup) eqn:F; [|reflexivity].
      exfalso. apply (proj2 N); [|reflexivity].
      exists h. split; [exact I | now apply find_match_heading].
  - vm_compute. reflexivity.
  - intros web self fuel w r w' pre rq post response.
    apply pages_loop_stops_at_sentinel.
Qed.

Lemma terminal_iff_sentinel_heading_witness :
  get_objects_list Sample.web_one_page (Sample.crawler None) 5 initial
  = (fst (get_objects_list Sample.web_one_page (Sample.crawler None) 5
            initial),
     mkWorld ([Sample.listing_request 0; Sample.detail_request]
              ++ Sample.listing_request 10 :: [])
       [Sample.card_anon])
  /\ exists objects,
       fst (get_objects_list Sample.web_one_page (Sample.crawler None) 5
              initial) = Ok objects.
Proof.
  assert (E : get_objects_list Sample.web_one_page (Sample.crawler None) 5
                initial
              = (fst (get_objects_list Sample.web_one_page
                        (Sample.crawler None) 5 initial),
                 mkWorld ([Sample.listing_request 0; Sample.detail_request]
                          ++ Sample.listing_request 10 :: [])
                   [Sample.card_anon]))
    by (vm_compute; reflexivity).
  split; [exact E|].
  exact (proj2 (proj2 (proj2 terminal_iff_sentinel_heading)
                  Sample.web_one_page (Sample.crawler None) 5 initial _ _
                  [Sample.listing_request 0; Sample.detail_request]
                  (Sample.listing_request 10) []
                  (mkResponse 200 Sample.last_page)
                  E eq_refl eq_refl eq_refl eq_refl)).
Defined.

(** C1 (as written, refuted): a listing page without cards does not end
    the run.  When every page is empty and carries no sentinel, a crawler
    with [max_pages = 3] requests all three pages. *)
Lemma empty_page_does_not_stop :
  select card_selector (soup_of Sample.empty_page) = []
  /\ is_terminal (soup_of Sample.empty_page) = false
  /\ get_objects_list Sample.web_empty_pages (Sample.crawler (Some 3%Z)) 10
       initial
     = (Ok [],
        mkWorld [Sample.listing_request 0; Sample.listing_request 10;
                 Sample.listing_request 20] [])
  /\ ~ stops_at_empty_page.
Proof.
  assert (E : get_objects_list Sample.web_empty_pages
                (Sample.crawler (Some 3%Z)) 10 initial
              = (Ok [],
                 mkWorld [Sample.listing_request 0; Sample.listing_request 10;
                          Sample.listing_request 20] []))
    by (vm_compute; reflexivity).
  repeat split; try (vm_compute; reflexivity); try exact E.
  intros H.
  specialize (H Sample.web_empty_pages (Sample.crawler (Some 3%Z)) 10
                initial _ _ [] (Sample.listing_request 0)
                [Sample.listing_request 10; Sample.listing_request 20]
                (mkResponse 200 Sample.empty_page)
                E eq_refl eq_refl eq_refl eq_refl eq_refl).
  vm_compute in H. discriminate H.
Qed.

(** C1 (amended): when a listing page that is not terminal yields no
    cards, the loop does not end there: it adds no record and goes on with
    the next page counter, and unless that counter exceeds [max_pages] the
    next listing page is requested. *)
Theorem empty_page_moves_on :
  forall (web : Web) (self : YelpCrawler) (fuel : nat) (page : Z)
         (objects : list Business) (w : World) (response : Response),
    beyond_last_page self (page + 1) = false ->
    web (sent w) (page_request self page) = Answer response ->
    is_terminal (soup_of (content response)) = false ->
    select card_selector (soup_of (content response)) = [] ->
    pages_loop web self (S fuel) page objects w
    = pages_loop web self fuel (page + 1) objects
        (after_request w (page_request self page))
    /\ (beyond_last_page self (page + 2) = false ->
        exists more,
          sent (snd (pages_loop web self (S (S fuel)) page objects w))
          = sent w
            ++ page_request self page :: page_request self (page + 1)
               :: more).
Proof.
  intros web self fuel page objects w response B W T C.
  assert (E : forall f,
             pages_loop web self (S f) page objects w
             = pages_loop web self f (page + 1) objects
                 (after_request w (page_request self page))).
  { intros f. rewrite pages_loop_step, B, W. cbv zeta.
    rewrite T, C. reflexivity. }
  split; [apply E|]. intros B2. rewrite E.
  destruct (pages_loop web self (S fuel) (page + 1) objects
              (after_request w (page_request self page))) as [r w'] eqn:R.
  replace (page + 2)%Z with (page + 1 + 1)%Z in B2 by lia.
  destruct (pages_loop_first_request web self _ _ _ _ _ _ B2 R)
    as [more M].
  exists more. cbn [snd]. rewrite M. cbn [after_request sent].
  now rewrite <- app_assoc.
Qed.

Lemma empty_page_moves_on_witness :
  pages_loop Sample.web_empty_pages (Sample.crawler (Some 3%Z)) 4 0 [] initial
  = pages_loop Sample.web_empty_pages (Sample.crawler (Some 3%Z)) 3 1 []
      (mkWorld [Sample.listing_request 0] [])
  /\ exists more,
       sent (snd (pages_loop Sample.web_empty_pages
                    (Sample.crawler (Some 3%Z)) 5 0 [] initial))
       = [] ++ Sample.listing_request 0 :: Sample.listing_request 10 :: more.
Proof.
  split.
  - exact (proj1 (empty_page_moves_on Sample.web_empty_pages
                    (Sample.crawler (Some 3%Z)) 3 0 [] initial
                    (mkResponse 200 Sample.empty_page)
                    eq_refl eq_refl eq_refl eq_refl)).
  - exact (proj2 (empty_page_moves_on Sample.web_empty_pages
                    (Sample.crawler (Some 3%Z)) 3 0 [] initial
                    (mkResponse 200 Sample.empty_page)
                    eq_refl eq_refl eq_refl eq_refl) eq_refl).
Defined.

(* ================================================================== *)
(** ** Transport failures *)

(** C3 (as written, refuted): a detail request that gets no answer is not
    recovered.  The card gives no record: the exception leaves
    [get_object_reviews], [get_object_data], the card loop and the page
    loop, and the run ends with it, handing back no collection and leaving
    the next listing page unrequested. *)
Lemma transport_failure_aborts_run :
  get_object_data Sample.web_details_down (Sample.crawler (Some 5%Z))
    (soup_of Sample.card_ok) initial
  = (Raise RequestException, mkWorld [Sample.detail_request] [])
  /\ get_objects_list Sample.web_details_down (Sample.crawler (Some 5%Z)) 10
       initial
     = (Raise RequestException,
        mkWorld [Sample.listing_request 0; Sample.detail_request]
          [Sample.card_anon])
  /\ ~ recovers_transport_failure.
Proof.
  assert (E : get_object_data Sample.web_details_down
                (Sample.crawler (Some 5%Z)) (soup_of Sample.card_ok) initial
              = (Raise RequestException,
                 mkWorld [Sample.detail_request] []))
    by (vm_compute; reflexivity).
  split; [exact E|]. split; [vm_compute; reflexivity|]. intros H.
  destruct (H Sample.web_details_down (Sample.crawler (Some 5%Z))
              (soup_of Sample.card_ok) "https://www.yelp.com/biz/joes"
              initial eq_refl eq_refl) as (b & w' & R & _).
  rewrite E in R. discriminate R.
Qed.

(** C3 (amended): the crawler never looks at the status of a response: the
    body is parsed whatever the status, and an empty body leaves the record
    with no website and no reviews while the card loop goes on.  A request
    that gets no answer raises, and nothing catches the exception: the
    record is lost and the card loop and the page loop end with it. *)
Theorem transport_failure_outcomes :
  forall (web : Web) (self : YelpCrawler) (card : Loc) (u : string)
         (rest : list Loc) (objects : list Business) (w : World),
    yelp_url (summary card) = Some u ->
    let rq := mkRequest u None in
    (forall status page,
        web (sent w) rq = Answer (mkResponse status page) ->
        get_object_reviews web self u w
        = extract_details self (soup_of page) (after_request w rq))
    /\ (forall status,
          web (sent w) rq = Answer (mkResponse status Sample.empty_page) ->
          get_object_data web self card w
          = (Ok (enriched (summary card) ([], None)), after_request w rq)
          /\ cards_loop web self (card :: rest) objects w
             = cards_loop web self rest
                 (objects ++ [enriched (summary card) ([], None)])
                 (after_request w rq))
    /\ (web (sent w) rq = NoAnswer ->
        get_object_data web self card w
        = (Raise RequestException, after_request w rq)
        /\ cards_loop web self (card :: rest) objects w
           = (Raise RequestException, after_request w rq))
    /\ (forall fuel page w1 response,
          beyond_last_page self (page + 1) = false ->
          web (sent w1) (page_request self page) = Answer response ->
          is_terminal (soup_of (content response)) = false ->
          select card_selector (soup_of (content response)) = card :: rest ->
          after_request w1 (page_request self page) = w ->
          web (sent w) rq = NoAnswer ->
          pages_loop web self (S fuel) page objects w1
          = (Raise RequestException, after_request w rq))
    /\ (forall fuel page,
          beyond_last_page self (page + 1) = false ->
          web (sent w) (page_request self page) = NoAnswer ->
          pages_loop web self (S fuel) page objects w
          = (Raise RequestException,
             after_request w (page_request self page))).
Proof.
  intros web self card u rest objects w U rq.
  assert (D : forall status,
             web (sent w) rq = Answer (mkResponse status Sample.empty_page) ->
             get_object_data web self card w
             = (Ok (enriched (summary card) ([], None)), after_request w rq)).
  { intros status W.
    rewrite (get_object_data_with_link web self card w u U).
    rewrite get_object_reviews_cases. fold rq. rewrite W. reflexivity. }
  assert (N : web (sent w) rq = NoAnswer ->
              get_object_data web self card w
              = (Raise RequestException, after_request w rq)).
  { intros W. rewrite (get_object_data_with_link web self card w u U).
    rewrite get_object_reviews_cases. fold rq. now rewrite W. }
  split; [|split; [|split; [|split]]].
  - intros status page W. rewrite get_object_reviews_cases. fold rq.
    now rewrite W.
  - intros status W. split; [now apply (D status)|].
    now rewrite cards_loop_cons, (D status W).
  - intros W. split; [now apply N|]. now rewrite cards_loop_cons, (N W).
  - intros fuel page w1 response B W1 T C <- W.
    rewrite pages_loop_step, B, W1. cbv zeta. rewrite T, C.
    now rewrite cards_loop_cons, (N W).
  - intros fuel page B W. now rewrite pages_loop_step, B, W.
Qed.

Lemma transport_failure_outcomes_witness :
  get_object_data Sample.web_details_down (Sample.crawler None)
    (soup_of Sample.card_ok) initial
  = (Raise RequestException, mkWorld [Sample.detail_request] [])
  /\ get_object_data Sample.web_details_404 (Sample.crawler None)
       (soup_of Sample.card_ok) initial
     = (Ok (enriched (summary (soup_of Sample.card_ok)) ([], None)),
        mkWorld [Sample.detail_request] []).
Proof.
  split.
  - exact (proj1 (proj1 (proj2 (proj2
             (transport_failure_outcomes Sample.web_details_down
                (Sample.crawler None) (soup_of Sample.card_ok)
                "https://www.yelp.com/biz/joes" [] [] initial eq_refl)))
             eq_refl)).
  - exact (proj1 (proj1 (proj2
             (transport_failure_outcomes Sample.web_details_404
                (Sample.crawler None) (soup_of Sample.card_ok)
                "https://www.yelp.com/biz/joes" [] [] initial eq_refl))
             404%Z eq_refl)).
Defined.

(* ================================================================== *)
(** ** Cards without a name link *)

(** C8 (as written, refuted): the dump of a nameless card can stop the
    run.  When the debug file cannot be written, the first card of the
    sample page, which has no name link, raises [OSError]; no record is
    given for it, the card after it is never processed (its detail page is
    not requested), and the run ends with the exception. *)
Lemma nameless_card_write_fails :
  select_one name_selector (soup_of Sample.card_anon) = None
  /\ get_object_data Sample.web_read_only (Sample.crawler None)
       (soup_of Sample.card_anon) initial
     = (Raise OSError, initial)
  /\ get_objects_list Sample.web_read_only (Sample.crawler None) 5 initial
     = (Raise OSError, mkWorld [Sample.listing_request 0] [])
  /\ ~ nameless_card_never_aborts.
Proof.
  assert (E : get_object_data Sample.web_read_only (Sample.crawler None)
                (soup_of Sample.card_anon) initial
              = (Raise OSError, initial))
    by (vm_compute; reflexivity).
  split; [vm_compute; reflexivity|]. split; [exact E|].
  split; [vm_compute; reflexivity|]. intros H.
  destruct (H Sample.web_read_only (Sample.crawler None)
              (soup_of Sample.card_anon) [] [] initial eq_refl)
    as (record & w' & R & _).
  rewrite E in R. discriminate R.
Qed.

(** C8 (amended): a card in which the name link is not found requests
    nothing and has its markup written to the debug file, and to the debug
    file only.  When that write succeeds, the card gives a record with
    [name] and [yelp_url] absent (rating and review count are read as
    usual) and the loop goes on with the remaining cards.  When the write
    fails, [OSError] is raised: the card gives no record and the pass over
    the page ends with the exception. *)
Theorem nameless_card_still_emitted :
  forall (web : Web) (self : YelpCrawler) (card : Loc) (rest : list Loc)
         (objects : list Business) (w : World),
    select_one name_selector card = None ->
    let record :=
      mkBusiness None
        (sanitize_element_text (select_one rating_selector card) [])
        (sanitize_element_text (select_one review_count_selector card)
           ["("; ")"])
        None [] None in
    (writable web (fix_html w) (here card) = true ->
     get_object_data web self card w
     = (Ok record, mkWorld (sent w) (fix_html w ++ [here card]))
     /\ cards_loop web self (card :: rest) objects w
        = cards_loop web self rest (objects ++ [record])
            (mkWorld (sent w) (fix_html w ++ [here card])))
    /\ (writable web (fix_html w) (here card) = false ->
        get_object_data web self card w = (Raise OSError, w)
        /\ cards_loop web self (card :: rest) objects w
           = (Raise OSError, w)).
Proof.
  intros web self card rest objects w N record.
  assert (S : summary card = record).
  { unfold summary, record. now rewrite N. }
  assert (G : get_object_data web self card w
              = if writable web (fix_html w) (here card)
                then (Ok record,
                      mkWorld (sent w) (fix_html w ++ [here card]))
                else (Raise OSError, w)).
  { rewrite <- S. apply get_object_data_without_link.
    rewrite S. reflexivity. }
  split; intros W; rewrite W in G; (split; [exact G|]);
    now rewrite cards_loop_cons, G.
Qed.

Lemma nameless_card_still_emitted_witness :
  cards_loop Sample.web_one_page (Sample.crawler None)
    [soup_of Sample.card_anon; soup_of Sample.card_ok] [] initial
  = cards_loop Sample.web_one_page (Sample.crawler None)
      [soup_of Sample.card_ok]
      [mkBusiness None None None None [] None]
      (mkWorld [] [Sample.card_anon])
  /\ cards_loop Sample.web_read_only (Sample.crawler None)
       [soup_of Sample.card_anon; soup_of Sample.card_ok] [] initial
     = (Raise OSError, initial).
Proof.
  split.
  - exact (proj2 (proj1
             (nameless_card_still_emitted Sample.web_one_page
                (Sample.crawler None) (soup_of Sample.card_anon)
                [soup_of Sample.card_ok] [] initial eq_refl) eq_refl)).
  - exact (proj2 (proj2
             (nameless_card_still_emitted Sample.web_read_only
                (Sample.crawler None) (soup_of Sample.card_anon)
                [soup_of Sample.card_ok] [] initial eq_refl) eq_refl)).
Defined.

(** C9: a record that comes out with no detail link is the summary built
    from its card: no request was made for it, its review list is empty and
    its website was never set; it is appended to the result as it is.  The
    same holds of every record of a finished run. *)
Theorem no_link_no_detail :
  forall (web : Web) (self : YelpCrawler) (card : Loc) (w : World)
         (b : Business) (w' : World),
    get_object_data web self card w = (Ok b, w') ->
    yelp_url b = None ->
    (b = summary card /\ reviews b = [] /\ website b = None
     /\ sent w' = sent w)
    /\ (forall rest objects,
          cards_loop web self (card :: rest) objects w
          = cards_loop web self rest (objects ++ [summary card]) w')
    /\ (forall fuel w0 result w1,
          get_objects_list web self fuel w0 = (Ok result, w1) ->
          Forall unenriched_without_link result).
Proof.
  intros web self card w b w' G U.
  destruct (get_object_data_effect web self card w _ w' G)
    as [_ [(_ & [(E & ->) | (E & _)]) | (u & Eu & _ & F)]].
  - injection E as ->. repeat split.
    + intros rest objects. now rewrite cards_loop_cons, G.
    + intros fuel w0 result w1.
      apply pages_loop_unenriched. constructor.
  - discriminate E.
  - exfalso. destruct (F b eq_refl) as [found ->].
    unfold enriched in U. cbn [yelp_url] in U. congruence.
Qed.

Lemma no_link_no_detail_witness :
  reviews (summary (soup_of Sample.card_anon)) = []
  /\ website (summary (soup_of Sample.card_anon)) = None.
Proof.
  destruct (proj1 (no_link_no_detail Sample.web_one_page (Sample.crawler None)
                     (soup_of Sample.card_anon) initial
                     (summary (soup_of Sample.card_anon))
                     (mkWorld [] [Sample.card_anon])
                     eq_refl eq_refl))
    as (_ & R & W & _).
  split; [exact R | exact W].
Defined.

(* ================================================================== *)
(** * Further properties of the crawler *)

(* ================================================================== *)
(** ** What one card gives *)

Lemma match_compound_is_tag c l :
  match_compound c l = true -> is_tag (here l) = true.
Proof. unfold match_compound. now destruct (here l). Qed.

Lemma matches_is_tag sel l : matches sel l = true -> is_tag (here l) = true.
Proof.
  destruct sel as [c | lhs comb rhs]; cbn [matches].
  - apply match_compound_is_tag.
  - intros H. apply andb_true_iff in H.
    now apply (match_compound_is_tag rhs).
Qed.

(** Whatever a selector finds is a tag, hence true in Python's sense. *)
Lemma select_one_truthy sel l a :
  select_one sel l = Some a -> truthy (Some a) = true.
Proof.
  unfold select_one, select. intros H.
  assert (I : In a (filter (matches sel) (descendants l))).
  { destruct (filter (matches sel) (descendants l)); [discriminate|].
    injection H as ->. now left. }
  apply filter_In in I. destruct I as [_ M].
  apply matches_is_tag in M. unfold truthy.
  now destruct (here a).
Qed.

Lemma origin_prefix (rest : string) :
  prefix origin (origin ++ rest) = true.
Proof. unfold origin. cbn. now destruct rest. Qed.

Lemma summary_with_name card a :
  select_one name_selector card = Some a ->
  name (summary card) = Some (sanitize_text (get_text (here a)) [])
  /\ yelp_url (summary card)
     = Some (origin ++ format_field (get a "href"))%string.
Proof.
  intros H. pose proof (select_one_truthy _ _ _ H) as T.
  unfold summary. cbn [name yelp_url]. rewrite H.
  unfold sanitize_element_text. rewrite T. now split.
Qed.

Lemma summary_without_name card :
  select_one name_selector card = None ->
  name (summary card) = None /\ yelp_url (summary card) = None.
Proof. intros H. unfold summary. cbn [name yelp_url]. now rewrite H. Qed.

Section CardFacts.

Variable web : Web.
Variable self : YelpCrawler.

(** Everything [get_object_data] can do with a card. *)
Lemma get_object_data_outcome card w :
  get_object_data web self card w
  = match yelp_url (summary card) with
    | None =>
        if writable web (fix_html w) (here card)
        then (Ok (summary card), after_dump w (here card))
        else (Raise OSError, w)
    | Some u =>
        match web (sent w) (mkRequest u None) with
        | NoAnswer =>
            (Raise RequestException, after_request w (mkRequest u None))
        | Answer response =>
            match extract_details self (soup_of (content response))
                    (after_request w (mkRequest u None)) with
            | (Ok found, w1) => (Ok (enriched (summary card) found), w1)
            | (Raise e, w1) => (Raise e, w1)
            | (OutOfFuel, w1) => (OutOfFuel, w1)
            end
        end
    end.
Proof.
  destruct (yelp_url (summary card)) as [u|] eqn:U.
  - rewrite (get_object_data_with_link web self card w u U).
    rewrite get_object_reviews_cases.
    now destruct (web (sent w) (mkRequest u None)).
  - now apply get_object_data_without_link.
Qed.

(** The records a card can give: its summary when it has no link,
    otherwise the summary completed with what a detail page yields. *)
Lemma produced_cases card b :
  produced web self card b ->
  (yelp_url (summary card) = None /\ b = summary card)
  \/ (exists u soup found w w',
         yelp_url (summary card) = Some u
         /\ extract_details self soup w = (Ok found, w')
         /\ b = enriched (summary card) found).
Proof.
  intros (w & w' & H). rewrite get_object_data_outcome in H.
  destruct (yelp_url (summary card)) as [u|] eqn:U.
  - right. destruct (web (sent w) (mkRequest u None)) as [|response];
      [discriminate|].
    destruct (extract_details self (soup_of (content response))
                (after_request w (mkRequest u None)))
      as [[found| e |] w1] eqn:E; try discriminate.
    injection H as <- _. now exists u, (soup_of (content response)), found,
      (after_request w (mkRequest u None)), w1.
  - left. destruct (writable web (fix_html w) (here card));
      [|discriminate]. injection H as <- _. now split.
Qed.

End CardFacts.

(** X1: in every record [get_object_data] returns, the name, the detail
    link and the [website] key stand or fall together: all three are
    absent when the card has no name link, and otherwise the link is
    present, starts with the site origin, and the [website] key is set.
    The four listing fields are those read from the card. *)
Theorem record_link_shape :
  forall (web : Web) (self : YelpCrawler) (card : Loc) (b : Business),
    produced web self card b ->
    (name b = None <-> yelp_url b = None)
    /\ (website b = None <-> yelp_url b = None)
    /\ (forall u, yelp_url b = Some u -> prefix origin u = true)
    /\ listing_fields b = listing_fields (summary card).
Proof.
  intros web self card b P.
  assert (S : (name (summary card) = None <-> yelp_url (summary card) = None)
              /\ forall u, yelp_url (summary card) = Some u ->
                           prefix origin u = true).
  { destruct (select_one name_selector card) as [a|] eqn:N.
    - destruct (summary_with_name card a N) as [-> ->]. split.
      + split; discriminate.
      + intros u [= <-]. apply origin_prefix.
    - destruct (summary_without_name card N) as [-> ->]. split.
      + tauto.
      + discriminate. }
  destruct S as [S1 S2].
  destruct (produced_cases web self card b P)
    as [[U ->] | (u & soup & found & w & w' & U & _ & ->)].
  - repeat split; try tauto; try exact S2.
  - unfold enriched, listing_fields. cbn [name yelp_url website rating
      reviews_count]. repeat split; try tauto; try exact S2;
      try discriminate; rewrite U; discriminate.
Qed.

Lemma record_link_shape_witness :
  prefix origin "https://www.yelp.com/biz/joes" = true.
Proof.
  exact (proj1 (proj2 (proj2
           (record_link_shape Sample.web_details_404 (Sample.crawler None)
              (soup_of Sample.card_ok)
              (enriched (summary (soup_of Sample.card_ok)) ([], None))
              (ex_intro _ initial
                 (ex_intro _ (mkWorld [Sample.detail_request] [])
                    eq_refl)))))
           "https://www.yelp.com/biz/joes" eq_refl).
Defined.

(** X2: a name link without an [href] still counts as a link: the missing
    attribute is printed as the word None, so the record's address is
    the origin followed by None, that address is requested, and the card
    is not written to the debug file. *)
Theorem link_without_href :
  forall (web : Web) (self : YelpCrawler) (card a : Loc) (w : World),
    select_one name_selector card = Some a ->
    get a "href" = None ->
    yelp_url (summary card) = Some "https://www.yelp.comNone"
    /\ exists r,
         get_object_data web self card w
         = (r, after_request w (mkRequest "https://www.yelp.comNone" None)).
Proof.
  intros web self card a w N H.
  destruct (summary_with_name card a N) as [_ U]. rewrite H in U.
  change (origin ++ format_field None)%string
    with "https://www.yelp.comNone" in U.
  split; [exact U|].
  rewrite get_object_data_outcome, U.
  destruct (web (sent w) (mkRequest "https://www.yelp.comNone" None))
    as [|response]; [now eexists|].
  destruct (extract_details self (soup_of (content response))
              (after_request w (mkRequest "https://www.yelp.comNone" None)))
    as [r w1] eqn:E.
  rewrite (extract_details_world _ _ _ _ _ E).
  destruct r; now eexists.
Qed.

Lemma link_without_href_witness :
  yelp_url (summary (soup_of Sample.card_no_href))
  = Some "https://www.yelp.comNone".
Proof.
  assert (N : exists a,
             select_one name_selector (soup_of Sample.card_no_href) = Some a
             /\ get a "href" = None)
    by (eexists; split; vm_compute; reflexivity).
  destruct N as (a & N & H).
  exact (proj1 (link_without_href Sample.web_one_page (Sample.crawler None)
                  (soup_of Sample.card_no_href) a initial N H)).
Defined.

(* ================================================================== *)
(** ** What a page of cards gives *)

Section CardsFacts.

Variable web : Web.
Variable self : YelpCrawler.

Lemma card_dump card w b w' :
  get_object_data web self card w = (Ok b, w') ->
  fix_html w'
  = fix_html w ++ (if nameless card then [here card] else []).
Proof.
  rewrite get_object_data_outcome. unfold nameless.
  destruct (yelp_url (summary card)) as [u|].
  - destruct (web (sent w) (mkRequest u None)) as [|response];
      [discriminate|].
    destruct (extract_details self (soup_of (content response))
                (after_request w (mkRequest u None))) as [r1 w1] eqn:E.
    rewrite (extract_details_world _ _ _ _ _ E).
    destruct r1; intros [= _ <-]; simpl; now rewrite app_nil_r.
  - destruct (writable web (fix_html w) (here card)); [|discriminate].
    now intros [= _ <-].
Qed.

(** A successful pass over the cards of a page. *)
Lemma cards_loop_ok cards objects w objects' w' :
  cards_loop web self cards objects w = (Ok objects', w') ->
  exists new,
    objects' = objects ++ new
    /\ Forall2 (produced web self) cards new
    /\ fix_html w' = fix_html w ++ map here (filter nameless cards).
Proof.
  revert objects w. induction cards as [|card rest IH]; intros objects w.
  - intros [= <- <-]. exists []. rewrite !app_nil_r.
    repeat split. constructor.
  - rewrite cards_loop_cons.
    destruct (get_object_data web self card w) as [[b| e |] w1] eqn:G;
      [|discriminate|discriminate].
    intros H. destruct (IH _ _ H) as (new & -> & F & D).
    exists (b :: new). rewrite <- app_assoc. split; [reflexivity|].
    split.
    + constructor; [now exists w, w1 | exact F].
    + rewrite D, (card_dump _ _ _ _ G). cbn [filter].
      destruct (nameless card); cbn [map]; now rewrite <- app_assoc.
Qed.

End CardsFacts.

(** X3: when the cards of a page are all processed, exactly one record
    per card is appended, in the cards' order, behind the records already
    collected, which are left as they are; the listing fields of each new
    record are those of its card. *)
Theorem records_follow_cards :
  forall (web : Web) (self : YelpCrawler) (cards : list Loc)
         (objects objects' : list Business) (w w' : World),
    cards_loop web self cards objects w = (Ok objects', w') ->
    exists new,
      objects' = objects ++ new
      /\ List.length new = List.length cards
      /\ map listing_fields new
         = map (fun card => listing_fields (summary card)) cards.
Proof.
  intros web self cards objects objects' w w' H.
  destruct (cards_loop_ok web self _ _ _ _ _ H) as (new & -> & F & _).
  exists new. split; [reflexivity|]. clear H.
  induction F as [|card b cards new P _ [IH1 IH2]]; [now split|].
  split; [simpl; now rewrite IH1|].
  cbn [map]. rewrite IH2. f_equal.
  destruct (produced_cases web self card b P)
    as [[_ ->] | (u & soup & found & w0 & w1 & _ & _ & ->)]; reflexivity.
Qed.

Lemma records_follow_cards_witness :
  exists new,
    fst (cards_loop Sample.web_one_page (Sample.crawler None)
           [soup_of Sample.card_anon; soup_of Sample.card_ok] [] initial)
    = Ok ([] ++ new)
    /\ List.length new = 2.
Proof.
  destruct (cards_loop Sample.web_one_page (Sample.crawler None)
              [soup_of Sample.card_anon; soup_of Sample.card_ok] []
              initial) as [[objects'| e |] w'] eqn:E;
    [|vm_compute in E; discriminate E|vm_compute in E; discriminate E].
  destruct (records_follow_cards _ _ _ _ _ _ _ E) as (new & -> & L & _).
  exists new. split; [reflexivity | exact L].
Defined.

(** X4: the debug file receives a card exactly when the card has no name
    link: after a successful pass over a page, what was written is the
    markup of the nameless cards, in page order, and nothing else. *)
Theorem dumps_are_nameless_cards :
  forall (web : Web) (self : YelpCrawler) (cards : list Loc)
         (objects objects' : list Business) (w w' : World),
    cards_loop web self cards objects w = (Ok objects', w') ->
    fix_html w' = fix_html w ++ map here (filter nameless cards).
Proof.
  intros web self cards objects objects' w w' H.
  now destruct (cards_loop_ok web self _ _ _ _ _ H) as (new & _ & _ & D).
Qed.

Lemma dumps_are_nameless_cards_witness :
  fix_html (snd (cards_loop Sample.web_one_page (Sample.crawler None)
                   [soup_of Sample.card_ok; soup_of Sample.card_anon] []
                   initial))
  = [Sample.card_anon].
Proof.
  destruct (cards_loop Sample.web_one_page (Sample.crawler None)
              [soup_of Sample.card_ok; soup_of Sample.card_anon] []
              initial) as [[objects'| e |] w'] eqn:E;
    [|vm_compute in E; discriminate E|vm_compute in E; discriminate E].
  exact (dumps_are_nameless_cards _ _ _ _ _ _ _ E).
Defined.

(* ================================================================== *)
(** ** What a run gives *)

Lemma summary_link_on_site card u :
  yelp_url (summary card) = Some u -> prefix origin u = true.
Proof.
  destruct (select_one name_selector card) as [a|] eqn:N.
  - destruct (summary_with_name card a N) as [_ ->].
    intros [= <-]. apply origin_prefix.
  - destruct (summary_without_name card N) as [_ ->]. discriminate.
Qed.

Section RunMore.

Variable web : Web.
Variable self : YelpCrawler.

Lemma extract_details_ok_length soup w found w' :
  extract_details self soup w = (Ok found, w') ->
  List.length (fst found) <= Z.to_nat (number_of_reviews self).
Proof.
  rewrite extract_details_closed_form.
  destruct (fst (website_of soup w)) as [site| e |]; try discriminate.
  pose proof (firstn_le_length (Z.to_nat (number_of_reviews self))
                (review_items soup)) as L.
  destruct (firstn _ (review_items soup)) as [|r chosen].
  - intros [= <- _]. simpl. lia.
  - destruct (nth_error (select date_block_selector soup) 1);
      [|discriminate].
    intros [= <- _]. cbn [fst]. simpl List.length in *.
    now rewrite length_map.
Qed.

Lemma produced_review_cap card b :
  produced web self card b ->
  List.length (reviews b) <= Z.to_nat (number_of_reviews self).
Proof.
  intros P. destruct (produced_cases web self card b P)
    as [[_ ->] | (u & soup & found & w0 & w1 & _ & E & ->)].
  - simpl. lia.
  - cbn [enriched reviews]. exact (extract_details_ok_length _ _ _ _ E).
Qed.

(** A property that every record has when it is made holds of every
    record a run returns. *)
Lemma pages_loop_records (Q : Business -> Prop) fuel page objects w
    objects' w' :
  (forall card b, produced web self card b -> Q b) ->
  Forall Q objects ->
  pages_loop web self fuel page objects w = (Ok objects', w') ->
  Forall Q objects'.
Proof.
  intros HQ. revert page objects w.
  induction fuel as [|fuel IH]; intros page objects w Hob; [discriminate|].
  rewrite pages_loop_step.
  destruct (beyond_last_page self (page + 1)); [now intros [= <- <-]|].
  destruct (web (sent w) (page_request self page)) as [|response];
    [discriminate|].
  cbv zeta. destruct (is_terminal _); [now intros [= <- <-]|].
  destruct (cards_loop _ _ _ _ _) as [[objects2| e |] w2] eqn:C;
    [|discriminate|discriminate].
  apply IH.
  destruct (cards_loop_ok web self _ _ _ _ _ C) as (new & -> & F & _).
  apply Forall_app. split; [exact Hob|].
  clear C. induction F as [|card b cards new P _ IHF]; constructor.
  - exact (HQ card b P).
  - exact IHF.
Qed.

Lemma card_requests card w r w' :
  get_object_data web self card w = (r, w') ->
  exists extra, sent w' = sent w ++ extra /\ Forall (on_site self) extra.
Proof.
  rewrite get_object_data_outcome.
  destruct (yelp_url (summary card)) as [u|] eqn:U.
  - assert (S : on_site self (mkRequest u None))
      by exact (summary_link_on_site card u U).
    assert (X : exists extra,
               sent (after_request w (mkRequest u None)) = sent w ++ extra
               /\ Forall (on_site self) extra).
    { exists [mkRequest u None]. split; [reflexivity|]. now constructor. }
    destruct (web (sent w) (mkRequest u None)) as [|response].
    + now intros [= _ <-].
    + destruct (extract_details self (soup_of (content response))
                  (after_request w (mkRequest u None))) as [r1 w1] eqn:E.
      rewrite (extract_details_world _ _ _ _ _ E).
      destruct r1; now intros [= _ <-].
  - destruct (writable web (fix_html w) (here card));
      intros [= _ <-]; exists [];
      (split; [simpl; now rewrite app_nil_r | constructor]).
Qed.

Lemma cards_requests cards objects w r w' :
  cards_loop web self cards objects w = (r, w') ->
  exists extra, sent w' = sent w ++ extra /\ Forall (on_site self) extra.
Proof.
  revert objects w. induction cards as [|card rest IH]; intros objects w.
  - intros [= _ <-]. exists []. split; [now rewrite app_nil_r|constructor].
  - rewrite cards_loop_cons.
    destruct (get_object_data web self card w) as [r1 w1] eqn:G.
    destruct (card_requests _ _ _ _ G) as (x1 & E1 & S1).
    destruct r1 as [b| e |].
    + intros H. destruct (IH _ _ H) as (x2 & E2 & S2).
      exists (x1 ++ x2). split; [now rewrite E2, E1, app_assoc|].
      now apply Forall_app.
    + intros [= _ <-]. now exists x1.
    + intros [= _ <-]. now exists x1.
Qed.

Lemma pages_requests fuel page objects w r w' :
  pages_loop web self fuel page objects w = (r, w') ->
  exists extra, sent w' = sent w ++ extra /\ Forall (on_site self) extra.
Proof.
  revert page objects w r w'.
  induction fuel as [|fuel IH]; intros page objects w r w'.
  - intros [= _ <-]. exists []. split; [now rewrite app_nil_r|constructor].
  - rewrite pages_loop_step.
    assert (one : exists extra,
               sent (after_request w (page_request self page))
               = sent w ++ extra
               /\ Forall (on_site self) extra).
    { exists [page_request self page]. split; [reflexivity|].
      constructor; [reflexivity | constructor]. }
    destruct (beyond_last_page self (page + 1)).
    { intros [= _ <-]. exists []. split; [now rewrite app_nil_r|constructor]. }
    destruct (web (sent w) (page_request self page)) as [|response].
    { now intros [= _ <-]. }
    cbv zeta. destruct (is_terminal _).
    { now intros [= _ <-]. }
    destruct one as (x0 & E0 & S0).
    destruct (cards_loop _ _ _ _ _) as [r2 w2] eqn:C.
    destruct (cards_requests _ _ _ _ _ C) as (x1 & E1 & S1).
    assert (two : exists extra, sent w2 = sent w ++ extra
                                /\ Forall (on_site self) extra).
    { exists (x0 ++ x1). split; [now rewrite E1, E0, app_assoc|].
      now apply Forall_app. }
    destruct r2 as [objects2| e |].
    + intros H. destruct (IH _ _ _ _ _ H) as (x2 & E2 & S2).
      destruct two as (x01 & E01 & S01).
      exists (x01 ++ x2). split; [now rewrite E2, E01, app_assoc|].
      now apply Forall_app.
    + now intros [= _ <-].
    + now intros [= _ <-].
Qed.



End RunMore.

(** X5: every record of a finished run has at most [number_of_reviews]
    reviews (none when that number is negative), whatever the pages held
    and however many pages were read. *)
Theorem run_reviews_capped :
  forall (web : Web) (self : YelpCrawler) (fuel : nat) (w w' : World)
         (result : list Business),
    get_objects_list web self fuel w = (Ok result, w') ->
    Forall (fun b => List.length (reviews b)
                     <= Z.to_nat (number_of_reviews self)) result.
Proof.
  intros web self fuel w w' result H.
  apply (pages_loop_records web self _ fuel 0%Z [] w result w');
    [|constructor|exact H].
  apply produced_review_cap.
Qed.

Lemma run_reviews_capped_witness :
  match fst (get_objects_list Sample.web_one_page (Sample.crawler None) 5
               initial) with
  | Ok result => Forall (fun b => List.length (reviews b) <= 2) result
  | _ => False
  end.
Proof.
  destruct (get_objects_list Sample.web_one_page (Sample.crawler None) 5
              initial) as [[result| e |] w'] eqn:E;
    [|vm_compute in E; discriminate E|vm_compute in E; discriminate E].
  exact (run_reviews_capped _ _ _ _ _ _ E).
Defined.

(** X6: a run asks for nothing but the search address with a [start]
    parameter and addresses that begin with the site origin; this holds of
    every request made, however the run ends. *)
Theorem run_stays_on_site :
  forall (web : Web) (self : YelpCrawler) (fuel : nat) (w : World),
    exists extra,
      sent (snd (get_objects_list web self fuel w)) = sent w ++ extra
      /\ Forall (on_site self) extra.
Proof.
  intros web self fuel w.
  destruct (get_objects_list web self fuel w) as [r w'] eqn:E.
  exact (pages_requests web self _ _ _ _ _ _ E).
Qed.



(** X8: without a page cap the loop has one normal exit only: a run with
    [max_pages = None] that returns a collection has just received a
    listing page carrying the sentinel, and that request was its last. *)
Theorem uncapped_run_ends_at_sentinel :
  forall (web : Web) (self : YelpCrawler) (fuel : nat) (page : Z)
         (objects objects' : list Business) (w w' : World),
    max_pages self = None ->
    pages_loop web self fuel page objects w = (Ok objects', w') ->
    exists pre rq response,
      sent w' = sent w ++ pre ++ [rq]
      /\ is_listing rq = true
      /\ web (sent w ++ pre) rq = Answer response
      /\ is_terminal (soup_of (content response)) = true.
Proof.
  intros web self fuel page objects objects' w w' K.
  revert page objects w.
  induction fuel as [|fuel IH]; intros page objects w; [discriminate|].
  rewrite pages_loop_step. unfold beyond_last_page. rewrite K.
  destruct (web (sent w) (page_request self page)) as [|response] eqn:W;
    [discriminate|].
  cbv zeta. destruct (is_terminal (soup_of (content response))) eqn:T.
  - intros [= _ <-]. exists [], (page_request self page), response.
    rewrite app_nil_r. now repeat split.
  - destruct (cards_loop _ _ _ _ _) as [[objects2| e |] w2] eqn:C;
      [|discriminate|discriminate].
    destruct (cards_loop_sent _ _ _ _ _ _ _ C) as (_ & extra & E & _).
    cbn [after_request sent] in E.
    intros H. destruct (IH _ _ _ H) as (pre & rq & resp & S & L & A & Tm).
    exists (([page_request self page] ++ extra) ++ pre), rq, resp.
    repeat split; trivial.
    + rewrite S, E, <- !app_assoc. reflexivity.
    + rewrite E, <- !app_assoc in A. rewrite <- !app_assoc. exact A.
Qed.

Lemma uncapped_run_ends_at_sentinel_witness :
  exists pre rq response,
    sent (snd (get_objects_list Sample.web_one_page (Sample.crawler None) 5
                 initial))
    = [] ++ pre ++ [rq]
    /\ is_listing rq = true
    /\ Sample.web_one_page ([] ++ pre) rq = Answer response
    /\ is_terminal (soup_of (content response)) = true.
Proof.
  destruct (get_objects_list Sample.web_one_page (Sample.crawler None) 5
              initial) as [[result| e |] w'] eqn:E;
    [|vm_compute in E; discriminate E|vm_compute in E; discriminate E].
  exact (uncapped_run_ends_at_sentinel Sample.web_one_page
           (Sample.crawler None) 5 0 [] result initial w' eq_refl E).
Defined.

(* ================================================================== *)
(** ** Removing single characters *)

Module RemoveFacts.
Import PyStr.

Lemma prefix_single c d s :
  prefix (single c) (String d s) = Ascii.eqb c d.
Proof.
  unfold single. cbn [prefix].
  destruct (ascii_dec c d) as [->|N].
  - rewrite Ascii.eqb_refl. now destruct s.
  - symmetry. now apply Ascii.eqb_neq.
Qed.

Lemma remove_single_step c d s :
  replace (single c) "" (String d s)
  = if Ascii.eqb c d then replace (single c) "" s
    else String d (replace (single c) "" s).
Proof.
  unfold replace, single. cbn [replace_scan].
  fold (single c). rewrite prefix_single.
  now destruct (Ascii.eqb c d).
Qed.

(** Removing a character removes every occurrence of it. *)
Lemma remove_single_gone c s : occurs c (replace (single c) "" s) = false.
Proof.
  induction s as [|d s IH]; [reflexivity|].
  rewrite remove_single_step. destruct (Ascii.eqb c d) eqn:E; [exact IH|].
  cbn [occurs]. now rewrite E.
Qed.

(** Removing a character brings no other character in. *)
Lemma remove_single_keeps_absent c d s :
  occurs c s = false -> occurs c (replace (single d) "" s) = false.
Proof.
  induction s as [|x s IH]; [reflexivity|].
  cbn [occurs]. intros H. apply orb_false_iff in H. destruct H as [H1 H2].
  rewrite remove_single_step. destruct (Ascii.eqb d x); [now apply IH|].
  cbn [occurs]. rewrite H1. now apply IH.
Qed.

Lemma remove_all_keeps_absent c symbols t :
  Forall (fun sym => exists d, sym = single d) symbols ->
  occurs c t = false -> occurs c (remove_all symbols t) = false.
Proof.
  intros F. revert t. induction F as [|sym rest [d ->] _ IH]; intros t H;
    [exact H|].
  apply (IH (replace (single d) "" t)). now apply remove_single_keeps_absent.
Qed.

Lemma remove_all_gone c symbols t :
  Forall (fun sym => exists d, sym = single d) symbols ->
  In (single c) symbols ->
  occurs c (remove_all symbols t) = false.
Proof.
  intros F. revert t. induction F as [|sym rest [d ->] Fr IH]; intros t I;
    [destruct I|].
  destruct I as [E | I].
  - injection E as ->.
    apply (remove_all_keeps_absent c rest (replace (single c) "" t) Fr).
    apply remove_single_gone.
  - exact (IH (replace (single d) "" t) I).
Qed.

End RemoveFacts.

(** X9: when every symbol is a single character, none of those characters
    is left in the sanitized text; so the review count of a record never
    contains a parenthesis. *)
Theorem symbols_are_removed :
  (forall (x : string) (symbols : list string) (c : ascii),
      Forall (fun sym => exists d, sym = single d) symbols ->
      In (single c) symbols ->
      occurs c (sanitize_text x symbols) = false)
  /\ (forall (web : Web) (self : YelpCrawler) (card : Loc) (b : Business)
             (t : string),
        produced web self card b ->
        reviews_count b = Some t ->
        occurs "(" t = false /\ occurs ")" t = false).
Proof.
  assert (G : forall x symbols c,
             Forall (fun sym => exists d, sym = single d) symbols ->
             In (single c) symbols ->
             occurs c (sanitize_text x symbols) = false).
  { intros x symbols c F I. unfold sanitize_text.
    now apply RemoveFacts.remove_all_gone. }
  split; [exact G|].
  intros web self card b t P R.
  assert (S : reviews_count (summary card) = Some t).
  { destruct (produced_cases web self card b P)
      as [[_ ->] | (u & soup & found & w0 & w1 & _ & _ & ->)]; exact R. }
  unfold summary in S. cbn [reviews_count] in S.
  unfold sanitize_element_text in S.
  destruct (select_one review_count_selector card) as [l|]; [|discriminate].
  destruct (negb (truthy (Some l))); [discriminate|].
  injection S as <-.
  assert (F : Forall (fun sym => exists d, sym = single d) ["("; ")"]).
  { repeat constructor; eexists; reflexivity. }
  split; apply G; trivial; simpl; tauto.
Qed.

Lemma symbols_are_removed_witness :
  occurs "(" (sanitize_text " (42) " ["("; ")"]) = false.
Proof.
  apply (proj1 symbols_are_removed).
  - repeat constructor; eexists; reflexivity.
  - now left.
Defined.

(* ================================================================== *)
(** ** The search address *)

Module UrllibFacts.
Import Urllib.

Lemma all_chars_app p s t :
  all_chars p (s ++ t) = all_chars p s && all_chars p t.
Proof.
  induction s as [|c s IH]; [reflexivity|].
  cbn [append all_chars]. now rewrite IH, andb_assoc.
Qed.

Lemma quote_plus_char_query c :
  all_chars query_char (quote_plus_char c) = true.
Proof.
  destruct c as [[] [] [] [] [] [] [] []]; vm_compute; reflexivity.
Qed.

Lemma quote_plus_query s : all_chars query_char (quote_plus s) = true.
Proof.
  induction s as [|c s IH]; [reflexivity|].
  cbn [quote_plus]. now rewrite all_chars_app, quote_plus_char_query, IH.
Qed.

Definition hex_value (d : ascii) : nat :=
  let n := nat_of_ascii d in
  if (n <? 58)%nat then n - 48 else n - 55.

(** Reads one escape [%XY] at the head of a string. *)
Definition read_escape (s : string) : option (nat * string) :=
  match s with
  | String pc (String h (String l r)) =>
      if (nat_of_ascii pc =? 37)%nat
      then Some (16 * hex_value h + hex_value l, r)
      else None
  | _ => None
  end.

(** Reads back the character at the head of an encoded text. *)
Definition read_char (s : string) : option (ascii * string) :=
  match s with
  | EmptyString => None
  | String c r =>
      if (nat_of_ascii c =? 43)%nat then Some (" "%char, r)
      else if (nat_of_ascii c =? 37)%nat then
        match read_escape s with
        | Some (b, r1) =>
            if (b <? 128)%nat then Some (ascii_of_nat b, r1)
            else
              match read_escape r1 with
              | Some (b2, r2) =>
                  Some (ascii_of_nat ((b - 192) * 64 + (b2 - 128)), r2)
              | None => None
              end
        | None => None
        end
      else Some (c, r)
  end.

Lemma read_quote_plus_char c r :
  read_char (quote_plus_char c ++ r) = Some (c, r).
Proof.
  destruct c as [[] [] [] [] [] [] [] []]; vm_compute; reflexivity.
Qed.

(** Different texts are encoded differently. *)
Lemma quote_plus_injective s t : quote_plus s = quote_plus t -> s = t.
Proof.
  revert t. induction s as [|c s IH]; intros [|d t] H.
  - reflexivity.
  - apply (f_equal read_char) in H. cbn [quote_plus] in H.
    rewrite read_quote_plus_char in H. discriminate H.
  - apply (f_equal read_char) in H. cbn [quote_plus] in H.
    rewrite read_quote_plus_char in H. discriminate H.
  - apply (f_equal read_char) in H. cbn [quote_plus] in H.
    rewrite !read_quote_plus_char in H. injection H as -> H.
    f_equal. now apply IH.
Qed.

(** Two texts free of [&] that agree once [&] and a tail are appended
    are equal, and so are the tails. *)
Lemma split_at_ampersand a a' b b' :
  all_chars query_char a = true ->
  all_chars query_char a' = true ->
  (a ++ String "&" b)%string = (a' ++ String "&" b')%string ->
  a = a' /\ b = b'.
Proof.
  revert a'. induction a as [|c a IH]; intros [|c' a'] Ha Ha' H;
    cbn [append] in H.
  - injection H as ->. now split.
  - injection H as <- _. cbn [all_chars] in Ha'.
    apply andb_true_iff in Ha'. destruct Ha' as [X _].
    vm_compute in X. discriminate X.
  - injection H as -> _. cbn [all_chars] in Ha.
    apply andb_true_iff in Ha. destruct Ha as [X _].
    vm_compute in X. discriminate X.
  - injection H as -> H. cbn [all_chars] in Ha, Ha'.
    apply andb_true_iff in Ha. apply andb_true_iff in Ha'.
    destruct (IH a' (proj2 Ha) (proj2 Ha') H) as [-> ->]. now split.
Qed.

Lemma append_cancel (p s t : string) :
  (p ++ s)%string = (p ++ t)%string -> s = t.
Proof.
  induction p as [|c p IH]; cbn [append]; [trivial|].
  intros H. injection H as H. now apply IH.
Qed.

Lemma search_url_shape category location :
  search_url category location
  = ("https://www.yelp.com/search?find_desc="
     ++ quote_plus category
     ++ String "&" ("find_loc=" ++ quote_plus location))%string.
Proof.
  unfold search_url, urlencode. cbn [map concat fst snd].
  change (quote_plus "find_desc") with "find_desc".
  change (quote_plus "find_loc") with "find_loc".
  cbn [append]. reflexivity.
Qed.

End UrllibFacts.

Lemma all_chars_occurs p c s :
  all_chars p s = true -> p c = false -> occurs c s = false.
Proof.
  intros A N. induction s as [|d s IH]; [reflexivity|].
  cbn [all_chars] in A. apply andb_true_iff in A. destruct A as [Pd A].
  cbn [occurs]. rewrite (IH A), orb_false_r.
  destruct (Ascii.eqb c d) eqn:E; [|reflexivity].
  apply Ascii.eqb_eq in E. congruence.
Qed.

(** X10: the address [run] builds is the fixed search address followed by
    the two encoded parameters, and an encoded parameter holds only
    letters, digits and the characters [_ . - ~ + %]: no space, [&], [=],
    [#] or [?] of the category or the location reaches the address. *)
Theorem search_url_is_safe :
  forall (category location : string),
    search_url category location
    = ("https://www.yelp.com/search?find_desc="
       ++ Urllib.quote_plus category
       ++ "&find_loc=" ++ Urllib.quote_plus location)%string
    /\ (forall s,
          all_chars query_char (Urllib.quote_plus s) = true
          /\ occurs " " (Urllib.quote_plus s) = false
          /\ occurs "&" (Urllib.quote_plus s) = false
          /\ occurs "=" (Urllib.quote_plus s) = false
          /\ occurs "#" (Urllib.quote_plus s) = false
          /\ occurs "?" (Urllib.quote_plus s) = false).
Proof.
  intros category location. split.
  - apply UrllibFacts.search_url_shape.
  - intros s. pose proof (UrllibFacts.quote_plus_query s) as Q.
    split; [exact Q|].
    repeat split; apply (all_chars_occurs query_char); trivial.
Qed.

(** X11: the search address determines the category and the location:
    two crawlers with the same address were given the same texts. *)
Theorem search_url_injective :
  forall (category location category' location' : string),
    search_url category location = search_url category' location' ->
    category = category' /\ location = location'.
Proof.
  intros c l c' l' H. rewrite !UrllibFacts.search_url_shape in H.
  apply UrllibFacts.append_cancel in H.
  apply UrllibFacts.split_at_ampersand in H;
    try apply UrllibFacts.quote_plus_query.
  destruct H as [Hc Hl].
  apply UrllibFacts.append_cancel in Hl.
  split; now apply UrllibFacts.quote_plus_injective.
Qed.

Lemma search_url_injective_witness :
  "New York City" = "New York City" /\ "Bakery" = "Bakery".
Proof.
  destruct (search_url_injective "Bakery" "New York City" "Bakery"
              "New York City" eq_refl) as [C L].
  split; [exact L | exact C].
Defined.

Example search_url_of_main :
  search_url "Restaurants" "New York City"
  = "https://www.yelp.com/search?find_desc=Restaurants&find_loc=New+York+City".
Proof. reflexivity. Qed.

(* ================================================================== *)
(** ** A crawler as the constructor makes it *)

Lemma run_unfold web fuel self w :
  run web fuel self w
  = match get_objects_list web
            (mkCrawler (search_url (category self) (location self))
               (number_of_reviews (settings self))
               (max_pages (settings self))) fuel w with
    | (Ok found, w') =>
        (Ok (mkInstance (category self) (location self) found
               (mkCrawler (search_url (category self) (location self))
                  (number_of_reviews (settings self))
                  (max_pages (settings self)))), w')
    | (Raise e, w') => (Raise e, w')
    | (OutOfFuel, w') => (OutOfFuel, w')
    end.
Proof. reflexivity. Qed.

(** X12: a crawler built by the constructor and run once always comes to
    an end within six turns of the loop; it requests at most five listing
    pages, at offsets 0, 10, ... of the search address made from its
    category and location, and every address it requests begins with the
    site origin.  When it returns, the object keeps its category and
    location, holds the returned records as [data], and no record has
    more than five reviews. *)
Theorem default_crawler_run :
  forall (web : Web) (cat loc : string) (spare : nat) (w : World),
    let self := mkCrawler (search_url cat loc) 5 (Some 5%Z) in
    let outcome := run web (6 + spare) (init cat loc) w in
    fst outcome <> OutOfFuel
    /\ (exists m,
          m <= 5
          /\ filter is_listing (sent (snd outcome))
             = filter is_listing (sent w) ++ page_requests self 0 m)
    /\ (exists extra,
          sent (snd outcome) = sent w ++ extra
          /\ Forall (fun rq => prefix origin (url rq) = true) extra)
    /\ (forall crawler,
          fst outcome = Ok crawler ->
          category crawler = cat
          /\ location crawler = loc
          /\ settings crawler = self
          /\ Forall (fun b => List.length (reviews b) <= 5) (data crawler)).
Proof.
  intros web cat loc spare w self outcome.
  assert (O : outcome
              = match get_objects_list web self (6 + spare) w with
                | (Ok found, w') => (Ok (mkInstance cat loc found self), w')
                | (Raise e, w') => (Raise e, w')
                | (OutOfFuel, w') => (OutOfFuel, w')
                end) by reflexivity.
  destruct (get_objects_list web self (6 + spare) w) as [r w'] eqn:E.
  pose proof (pages_loop_finishes web self (6 + spare) 0 [] w 5 eq_refl
                ltac:(simpl; lia)) as F.
  unfold get_objects_list in E. rewrite E in F. cbn [fst] in F.
  destruct (pages_loop_bound web self _ _ _ _ _ _ 5%Z eq_refl E)
    as (m & Hm & B).
  destruct (pages_requests web self _ _ _ _ _ _ E) as (extra & S & A).
  assert (A' : Forall (fun rq => prefix origin (url rq) = true) extra).
  { eapply Forall_impl; [|exact A]. intros rq. unfold on_site.
    destruct (start rq); [|trivial].
    intros ->. unfold self. cbn [search].
    rewrite UrllibFacts.search_url_shape. reflexivity. }
  assert (W : snd outcome = w') by (rewrite O; now destruct r).
  rewrite W. split; [rewrite O; now destruct r|].
  split; [exists m; split; [simpl in Hm; lia | exact B]|].
  split; [now exists extra|].
  intros crawler C. rewrite O in C. destruct r as [found| e |];
    try discriminate C.
  injection C as <-. cbn [category location settings data].
  repeat split.
  apply (pages_loop_records web self
           (fun b => List.length (reviews b) <= 5) _ _ _ _ _ _
           (produced_review_cap web self) (Forall_nil _) E).
Qed.

(* ================================================================== *)
(** ** More on the detail stage *)

(** X13: the review date is looked up in the page, not in the review: all
    the reviews extracted from one detail page carry the same
    [review_date]. *)
Theorem reviews_share_one_date :
  forall (self : YelpCrawler) (soup : Loc) (w w' : World)
         (revs : list Review) (site : option string),
    extract_details self soup w = (Ok (revs, site), w') ->
    exists date, Forall (fun r => review_date r = date) revs.
Proof.
  intros self soup w w' revs site H.
  rewrite extract_details_closed_form in H.
  destruct (fst (website_of soup w)) as [site0| e |]; try discriminate H.
  destruct (firstn _ (review_items soup)) as [|r chosen].
  - injection H as <- _ _. exists None. constructor.
  - destruct (nth_error (select date_block_selector soup) 1) as [d|];
      [|discriminate H].
    injection H as <- _ _.
    exists (sanitize_element_text (select_one date_selector d) []).
    apply Forall_forall. intros x I.
    change (In x (map (review_record d) (r :: chosen))) in I.
    apply in_map_iff in I. destruct I as (y & <- & _). reflexivity.
Qed.

Lemma reviews_share_one_date_witness :
  match extract_details (Sample.crawler None) (soup_of Sample.detail_page)
          initial with
  | (Ok (revs, _), _) =>
      exists date, Forall (fun r => review_date r = date) revs
  | _ => False
  end.
Proof.
  destruct (extract_details (Sample.crawler None)
              (soup_of Sample.detail_page) initial)
    as [[[revs site]| e |] w'] eqn:E;
    [|vm_compute in E; discriminate E|vm_compute in E; discriminate E].
  exact (reviews_share_one_date _ _ _ _ _ _ E).
Defined.

(** X14: with a cap of zero or less the loop leaves at its first test:
    no review is read and the date lookup is never made, so the detail
    stage returns an empty list whenever the website lookup succeeds, even
    on a page that has review items and no date block. *)
Theorem no_reviews_wanted :
  forall (self : YelpCrawler) (soup : Loc) (w : World)
         (site : option string),
    (number_of_reviews self <= 0)%Z ->
    website_of soup w = (Ok site, w) ->
    extract_details self soup w = (Ok ([], site), w).
Proof.
  intros self soup w site N S. rewrite extract_details_closed_form, S.
  cbn [fst]. replace (Z.to_nat (number_of_reviews self)) with 0 by lia.
  reflexivity.
Qed.

Lemma no_reviews_wanted_witness :
  extract_details (mkCrawler "" 0 None) (soup_of Sample.bare_review_page)
    initial
  = (Ok ([], None), initial).
Proof.
  apply no_reviews_wanted; [vm_compute; discriminate | reflexivity].
Defined.

(* ================================================================== *)
(** ** A run without a page cap *)

(** X15: nothing but the sentinel ends an uncapped run.  When
    [max_pages] is [None] and every listing page comes back without the
    sentinel and without cards, each turn of the loop requests the next
    page, and no number of turns is enough: after [fuel] turns the loop
    has requested [fuel] pages and is still going. *)
Theorem uncapped_run_goes_on :
  forall (web : Web) (self : YelpCrawler),
    max_pages self = None ->
    (forall history rq,
        exists response,
          web history rq = Answer response
          /\ is_terminal (soup_of (content response)) = false
          /\ select card_selector (soup_of (content response)) = []) ->
    forall (fuel : nat) (page : Z) (objects : list Business) (w : World),
      pages_loop web self fuel page objects w
      = (OutOfFuel,
         mkWorld (sent w ++ page_requests self page fuel) (fix_html w)).
Proof.
  intros web self K A fuel. induction fuel as [|fuel IH];
    intros page objects w.
  - cbn [pages_loop page_requests seq map]. rewrite app_nil_r.
    now destruct w.
  - rewrite pages_loop_step. unfold beyond_last_page. rewrite K.
    destruct (A (sent w) (page_request self page)) as (resp & -> & T & C).
    cbv zeta. rewrite T, C. cbn [cards_loop ret].
    rewrite IH, page_requests_succ. cbn [after_request sent fix_html].
    now rewrite <- app_assoc.
Qed.

Lemma uncapped_run_goes_on_witness :
  get_objects_list Sample.web_empty_pages (Sample.crawler None) 3 initial
  = (OutOfFuel,
     mkWorld [Sample.listing_request 0; Sample.listing_request 10;
              Sample.listing_request 20] []).
Proof.
  apply (uncapped_run_goes_on Sample.web_empty_pages (Sample.crawler None)
           eq_refl).
  intros history rq. exists (mkResponse 200 Sample.empty_page).
  repeat split; vm_compute; reflexivity.
Defined.
